(** * rag-flask: the RAG orchestration core, embedded in Rocq

    A shallow embedding of [src/utils.py], [src/rag_chain.py],
    [src/s3_loader.py], [src/document_processor.py], [src/vectorstore.py]
    and [src/rag_system.py].  Python objects are records, attribute
    mutation is explicit state passing, exceptions are the left summand of
    a result, and the external capabilities (S3, the PDF loader, the
    embedding model, Chroma, the language model) are fields of a
    [Backend] record that the definitions are parameterised by. *)

From stdpp Require Import gmap strings list fin_maps.
From Stdlib Require Import ZArith Ascii String.

Local Open Scope string_scope.
Local Open Scope Z_scope.

(** ** Exceptions *)

(** The exception classes the core raises or lets through.  Messages are
    dropped: no branch of the code inspects them.  [ClientError] carries
    botocore's [e.response['Error']['Code']]; [RetryError] is tenacity's
    wrapper around the outcome of the last attempt. *)
Inductive exn : Type :=
| FileNotFoundError
| NotADirectoryError
| FileExistsError
| PermissionError
| ValueError
| ClientError (code : string)
| RetryError (last : exn)
| OtherError (name : string).

#[global] Instance exn_eq_dec : EqDecision exn.
Proof. solve_decision. Defined.

(** [FileExistsError], [FileNotFoundError], [NotADirectoryError] and
    [PermissionError] are the subclasses of [OSError] used here. *)
Definition is_OSError (e : exn) : bool :=
  match e with
  | FileNotFoundError | NotADirectoryError | FileExistsError | PermissionError => true
  | _ => false
  end.

(** ** Python values and strings *)

(** What a caller may pass where a [str] is expected (the JSON body of
    [/api/ask] can hold any of these). *)
Inductive pyval : Type :=
| PyNone
| PyBool (b : bool)
| PyInt (z : Z)
| PyStr (s : string)
| PyBytes (b : string).

Module PyString.

(** [str.isspace] on one character, for code points below 256:
    TAB..CR, FS..US, SPACE, NEL and NBSP. *)
Definition is_space (c : ascii) : bool :=
  let n := Z.of_nat (nat_of_ascii c) in
  ((9 <=? n) && (n <=? 13)) || ((28 <=? n) && (n <=? 32))
  || (n =? 133) || (n =? 160).

Fixpoint lstrip (s : string) : string :=
  match s with
  | EmptyString => EmptyString
  | String c s' => if is_space c then lstrip s' else s
  end.

Fixpoint rstrip (s : string) : string :=
  match s with
  | EmptyString => EmptyString
  | String c s' =>
      match rstrip s' with
      | EmptyString => if is_space c then EmptyString else String c EmptyString
      | r => String c r
      end
  end.

(** [s.strip()] *)
Definition strip (s : string) : string := rstrip (lstrip s).

(** [len(s)] *)
Definition len (s : string) : Z := Z.of_nat (String.length s).

(** [c.lower()] for code points below 256: A..Z and the Latin-1 capitals
    (0xC0..0xDE without the multiplication sign) move up by 32. *)
Definition lower_char (c : ascii) : ascii :=
  let n := nat_of_ascii c in
  if ((65 <=? n) && (n <=? 90))%nat
     || ((192 <=? n) && (n <=? 222) && negb (n =? 215))%nat
  then ascii_of_nat (n + 32) else c.

Fixpoint lower (s : string) : string :=
  match s with
  | EmptyString => EmptyString
  | String c s' => String (lower_char c) (lower s')
  end.

Fixpoint string_rev_app (s acc : string) : string :=
  match s with
  | EmptyString => acc
  | String c s' => string_rev_app s' (String c acc)
  end.

Definition rev (s : string) : string := string_rev_app s EmptyString.

(** [s.endswith(suffix)] *)
Definition endswith (s suffix : string) : bool :=
  String.prefix (rev suffix) (rev s).


End PyString.

(** ** [src/utils.py] *)


(** The guard of [RAGChain.query]:
    [not isinstance(question, str) or len(question.strip()) < 3]. *)
Definition query_rejects (question : pyval) : bool :=
  match question with
  | PyStr s => PyString.len (PyString.strip s) <? 3
  | _ => true
  end.

(** ** A state-and-exception monad

    [M S A] is a Python computation over the mutable state [S] that either
    returns an [A] or raises.  State changes made before an exception stay
    (Python has no rollback). *)

Definition M (S A : Type) : Type := S → (exn + A) * S.

Definition ret {S A} (a : A) : M S A := λ s, (inr a, s).

Definition raise {S A} (e : exn) : M S A := λ s, (inl e, s).

Definition bind {S A B} (c : M S A) (k : A → M S B) : M S B :=
  λ s, match c s with
       | (inr a, s') => k a s'
       | (inl e, s') => (inl e, s')
       end.

(** [try: c  except Exception as e: h e] *)
Definition try_except {S A} (c : M S A) (h : exn → M S A) : M S A :=
  λ s, match c s with
       | (inl e, s') => h e s'
       | (inr a, s') => (inr a, s')
       end.

(** [try: c  except Exception as e: logger.error(...); raise] *)
Definition reraise {S A} (c : M S A) : M S A := try_except c raise.

Definition modify {S} (f : S → S) : M S unit := λ s, (inr tt, f s).

(** Run a computation over the second component of a pair of states: a
    method of an object [O] calling into the world [W]. *)
Definition in_world {O W A} (c : M W A) : M (O * W) A :=
  λ '(o, w), let '(r, w') := c w in (r, (o, w')).

(** Read and update the object of a pair of states. *)
Definition self_get {O W} : M (O * W) O := λ '(o, w), (inr o, (o, w)).

Definition self_set {O W} (f : O → O) : M (O * W) unit :=
  λ '(o, w), (inr tt, (f o, w)).

(** Run a method of the sub-object [getp o] and store the sub-object back. *)
Definition zoom {O P W A} (getp : O → P) (setp : P → O → O)
    (c : M (P * W) A) : M (O * W) A :=
  λ '(o, w), let '(r, (p', w')) := c (getp o, w) in (r, (setp p' o, w')).

Declare Scope py_scope.
Delimit Scope py_scope with py.
Notation "x <- c ;; k" := (bind c (λ x, k))
  (at level 100, c at next level, right associativity) : py_scope.
Notation "c ;; k" := (bind c (λ _, k))
  (at level 100, right associativity) : py_scope.
Local Open Scope py_scope.

(** ** The local filesystem *)

(** A path is the list of its components, innermost first:
    ["data/a.pdf"] is [["a.pdf"; "data"]] and the working directory is
    [[]].  [os.path.join d name] is then [name :: d] and the entries below
    [d] are the paths that [d] is a suffix of. *)
Abbreviation path := (list string).

Inductive node : Type :=
| File (content : string)
| Dir.

#[global] Instance node_eq_dec : EqDecision node.
Proof. solve_decision. Defined.

Abbreviation FS := (gmap (list string) node).

Module OS.

(** What is at [p]; the working directory always exists. *)
Definition kind (fs : FS) (p : path) : option node :=
  match p with
  | [] => Some Dir
  | _ => fs !! p
  end.

(** [os.path.exists], [os.path.isdir], [os.path.isfile] *)
Definition exists_ (fs : FS) (p : path) : bool :=
  match kind fs p with Some _ => true | None => false end.

Definition isdir (fs : FS) (p : path) : bool :=
  match kind fs p with Some Dir => true | _ => false end.

Definition isfile (fs : FS) (p : path) : bool :=
  match kind fs p with Some (File _) => true | _ => false end.

(** [os.path.join(d, name)] and [os.path.basename(p)] *)
Definition join (d : path) (name : string) : path := name :: d.

Definition basename (p : path) : string := hd "" p.

Definition child_of (d : path) (k : path) : option string :=
  match k with
  | name :: d' => if decide (d' = d) then Some name else None
  | [] => None
  end.

(** [os.listdir(d)]: the names directly below [d]. *)
Definition listdir (fs : FS) (d : path) : exn + list string :=
  match kind fs d with
  | Some Dir => inr (omap (λ kv, child_of d kv.1) (map_to_list fs))
  | Some (File _) => inl NotADirectoryError
  | None => inl FileNotFoundError
  end.

(** [os.mkdir(p)] *)
Definition mkdir (fs : FS) (p : path) : exn + FS :=
  match kind fs p with
  | Some _ => inl FileExistsError
  | None =>
      match kind fs (tail p) with
      | Some Dir => inr (<[p := Dir]> fs)
      | Some (File _) => inl NotADirectoryError
      | None => inl FileNotFoundError
      end
  end.

(** The last step of [os.makedirs(p, exist_ok=True)]: [mkdir(p)], whose
    [OSError] is passed over when [p] is a directory. *)
Definition mkdir_exist_ok (p : path) (fs : FS) : (exn + unit) * FS :=
  match mkdir fs p with
  | inr fs' => (inr tt, fs')
  | inl e => if is_OSError e && isdir fs p then (inr tt, fs) else (inl e, fs)
  end.

(** [try: ... except FileExistsError: pass] *)
Definition pass_FileExistsError (r : (exn + unit) * FS) : (exn + unit) * FS :=
  match r with
  | (inl FileExistsError, fs') => (inr tt, fs')
  | other => other
  end.

(** [os.makedirs(p, exist_ok=True)]: when the parent is named and does
    not exist, create it the same way first; then [mkdir p]. *)
Fixpoint makedirs (p : path) (fs : FS) : (exn + unit) * FS :=
  match p with
  | [] => mkdir_exist_ok [] fs
  | _ :: head =>
      let '(r, fs1) :=
        if negb (bool_decide (head = [])) && negb (exists_ fs head)
        then pass_FileExistsError (makedirs head fs)
        else (inr tt, fs) in
      match r with
      | inl e => (inl e, fs1)
      | inr _ => mkdir_exist_ok p fs1
      end
  end.

(** [shutil.rmtree(p)]: [p] and everything below it goes. *)
Definition rmtree (fs : FS) (p : path) : exn + FS :=
  match kind fs p with
  | Some Dir => inr (filter (λ kv, ¬ (p `suffix_of` kv.1)) fs)
  | Some (File _) => inl NotADirectoryError
  | None => inl FileNotFoundError
  end.

(** Writing a file (what [download_file] does with the body). *)
Definition write_file (fs : FS) (p : path) (body : string) : exn + FS :=
  match kind fs p with
  | Some Dir => inl (OtherError "IsADirectoryError")
  | _ =>
      match kind fs (tail p) with
      | Some Dir => inr (<[p := File body]> fs)
      | Some (File _) => inl NotADirectoryError
      | None => inl FileNotFoundError
      end
  end.

(** A directory that exists and has nothing in or below it. *)
Definition empty_dir (fs : FS) (p : path) : Prop :=
  kind fs p = Some Dir ∧ ∀ k, p `suffix_of` k → k ≠ p → fs !! k = None.

(** [fs'] is [fs] with, at most, directories added at [p] or above it. *)
Definition only_adds_dirs (p : path) (fs fs' : FS) : Prop :=
  ∀ k, fs' !! k = fs !! k
       ∨ (fs !! k = None ∧ fs' !! k = Some Dir ∧ k `suffix_of` p ∧ k ≠ []).

End OS.

(** ** The world outside the process *)

(** The local disk, the state [Ext] of the external services (the bucket,
    the model servers, whatever Chroma keeps), and the waits that
    [time.sleep] was asked for, oldest first. *)
Record World (Ext : Type) : Type := mkWorld {
  fs : FS;
  ext : Ext;
  sleeps : list Z
}.
Arguments mkWorld {Ext} _ _ _.
Arguments fs {Ext} _.
Arguments ext {Ext} _.
Arguments sleeps {Ext} _.

(** A library call: it sees the disk and the services, not the clock. *)
Definition Oracle (Ext A : Type) : Type := FS → Ext → (exn + A) * FS * Ext.

Definition call {Ext A : Type} (o : Oracle Ext A) : M (World Ext) A :=
  λ w, let '(r, fs', ext') := o (fs w) (ext w) in
       (r, mkWorld fs' ext' (sleeps w)).

(** [time.sleep(seconds)] *)
Definition sleep {Ext : Type} (seconds : Z) : M (World Ext) unit :=
  modify (λ w, mkWorld (fs w) (ext w) (sleeps w ++ [seconds])).

Definition fs_read {Ext A : Type} (f : FS → A) : M (World Ext) A :=
  λ w, (inr (f (fs w)), w).

Definition fs_try {Ext A : Type} (f : FS → exn + A) : M (World Ext) A :=
  λ w, (f (fs w), w).

Definition fs_update {Ext : Type} (f : FS → exn + FS) : M (World Ext) unit :=
  λ w, match f (fs w) with
       | inr fs' => (inr tt, mkWorld fs' (ext w) (sleeps w))
       | inl e => (inl e, w)
       end.

Definition fs_run {Ext : Type} (f : FS → (exn + unit) * FS) : M (World Ext) unit :=
  λ w, let '(r, fs') := f (fs w) in (r, mkWorld fs' (ext w) (sleeps w)).

(** ** Data model *)

(** [langchain.schema.Document] *)
Record Document : Type := mkDocument {
  page_content : string;
  metadata : gmap string pyval
}.

(** [config.RAGConfig], without the Flask and logging fields. *)
Record RAGConfig : Type := mkRAGConfig {
  EMBEDDING_MODEL : string;
  LLM_MODEL : string;
  CONTEXT_WINDOW : Z;
  CHUNK_SIZE : Z;
  CHUNK_OVERLAP : Z;
  VECTOR_STORE_DIR : path;
  DATA_DIR : path;
  S3_BUCKET_NAME : string;
  AWS_REGION : string
}.

(** The libraries the core calls into.  Nothing is assumed of them: the
    theorems stated over a [Backend] hold for every one. *)
Record Backend : Type := mkBackend {
  Ext : Type;
  Emb : Type;
  Store : Type;
  Chain : Type;
  (** [HuggingFaceEmbeddings(model_name=...)] *)
  HuggingFaceEmbeddings : string → Oracle Ext Emb;
  (** [s3_client.head_object(Bucket=..., Key=...)] *)
  head_object : string → string → Oracle Ext unit;
  (** [s3_client.download_file(bucket, key, local_file)] *)
  download_file : string → string → path → Oracle Ext unit;
  (** [PyPDFLoader(pdf_path).load()]: one document per page *)
  PyPDFLoader_load : path → Oracle Ext (list Document);
  (** [RecursiveCharacterTextSplitter(chunk_size, chunk_overlap).split_text] *)
  split_text : Z → Z → string → list string;
  (** [Chroma(persist_directory=..., embedding_function=...)] *)
  Chroma : path → Emb → Oracle Ext Store;
  (** [Chroma.from_documents(documents, embedding, persist_directory)] *)
  Chroma_from_documents : list Document → Emb → path → Oracle Ext Store;
  (** [vector_store.persist()] *)
  Chroma_persist : Store → Oracle Ext unit;
  (** [ChatOllama(...)], [as_retriever(...)] and the composition
      [{context, question} | prompt | llm | StrOutputParser()] *)
  make_chain : string → Z → Store → Oracle Ext Chain;
  (** [chain.invoke(question)] *)
  chain_invoke : Chain → string → Oracle Ext string
}.

(** ** The components *)

Section Core.

Context (B : Backend).

Abbreviation W := (World (Ext B)).

(** *** [src/embeddings.py] *)

Record EmbeddingsManager : Type := mkEmbeddingsManager {
  embeddings : option (Emb B)
}.

Definition initialize_embeddings (config : RAGConfig)
  : M (EmbeddingsManager * W) (Emb B) :=
  reraise (
    e <- in_world (call (HuggingFaceEmbeddings B (EMBEDDING_MODEL config))) ;;
    self_set (λ _, mkEmbeddingsManager (Some e)) ;;
    ret e).

(** *** [src/s3_loader.py] *)

(** [wait_exponential(multiplier, min, max)] after attempt
    [attempt_number]: [multiplier * 2 ** (attempt_number - 1)], clamped. *)
Definition wait_exponential (multiplier min_ max_ : Z) (attempt_number : Z) : Z :=
  let result := multiplier * 2 ^ (attempt_number - 1) in
  Z.max (Z.max 0 min_) (Z.min result max_).

(** tenacity's [@retry(stop=stop_after_attempt(n), wait=wait)] with its
    defaults [retry=retry_if_exception_type()] (every [Exception]) and
    [reraise=False]: an attempt that raises is followed by a sleep and
    another attempt while attempts are left; the last one's exception is
    wrapped in [RetryError]. *)
Fixpoint retrying {A} (attempts_left : nat) (wait : Z → Z)
    (attempt_number : Z) (c : M W A) : M W A :=
  try_except c (λ e,
    match attempts_left with
    | O => raise (RetryError e)
    | S n =>
        sleep (wait attempt_number) ;;
        retrying n wait (attempt_number + 1) c
    end).

Definition retry_stop_after_attempt {A} (n : nat) (wait : Z → Z) (c : M W A)
  : M W A :=
  retrying (Nat.pred n) wait 1 c.

(** The body of [S3Downloader.download_pdf]: one attempt. *)
Definition download_pdf_attempt (config : RAGConfig) (filename : string)
  : M W path :=
  let bucket_name := S3_BUCKET_NAME config in
  let local_file := OS.join (DATA_DIR config) filename in
  try_except (
    try_except (call (head_object B bucket_name filename))
      (λ e, match e with
            | ClientError code =>
                if String.eqb code "404" then raise FileNotFoundError
                else raise e
            | _ => raise e
            end) ;;
    call (download_file B bucket_name filename local_file) ;;
    ret local_file)
  (λ e, match e with
        | ClientError error_code =>
            if String.eqb error_code "NoSuchKey" then raise FileNotFoundError
            else if String.eqb error_code "NoSuchBucket" then raise FileNotFoundError
            else if String.eqb error_code "403" then raise PermissionError
            else raise e
        | _ => raise e
        end).

(** [S3Downloader.download_pdf], decorator included. *)
Definition download_pdf (config : RAGConfig) (filename : string) : M W path :=
  retry_stop_after_attempt 3 (wait_exponential 1 4 10)
    (download_pdf_attempt config filename).

(** *** [src/document_processor.py] *)

(** The loop of [load_and_split_pdf] over [enumerate(docs)]. *)
Definition set_metadata (pdf_path : path) (i : nat) (doc : Document) : Document :=
  mkDocument (page_content doc)
    (<["page" := PyInt (Z.of_nat i + 1)]>
       (<["source" := PyStr (OS.basename pdf_path)]> (metadata doc))).

(** [TextSplitter.split_documents]: every piece of a document's text
    becomes a document with that document's metadata. *)
Definition split_documents (config : RAGConfig) (docs : list Document)
  : list Document :=
  flat_map (λ doc,
    map (λ chunk, mkDocument chunk (metadata doc))
        (split_text B (CHUNK_SIZE config) (CHUNK_OVERLAP config)
           (page_content doc)))
    docs.

(** [DocumentProcessor.load_and_split_pdf] *)
Definition load_and_split_pdf (config : RAGConfig) (pdf_path : path)
  : M W (list Document) :=
  reraise (
    docs <- call (PyPDFLoader_load B pdf_path) ;;
    let docs := imap (set_metadata pdf_path) docs in
    let chunks := split_documents config docs in
    ret chunks).

(** The [for filename in pdf_files] loop of [load_and_split_all_pdfs]. *)
Fixpoint split_each (config : RAGConfig) (data_folder : path)
    (pdf_files : list string) (all_chunks : list Document)
  : M W (list Document) :=
  match pdf_files with
  | [] => ret all_chunks
  | filename :: rest =>
      all_chunks <-
        try_except (
          let pdf_path := OS.join data_folder filename in
          chunks <- load_and_split_pdf config pdf_path ;;
          ret (all_chunks ++ chunks)%list)
        (λ _, ret all_chunks) ;;
      split_each config data_folder rest all_chunks
  end.

Definition is_pdf_name (f : string) : bool :=
  PyString.endswith (PyString.lower f) ".pdf".

(** [DocumentProcessor.load_and_split_all_pdfs] *)
Definition load_and_split_all_pdfs (config : RAGConfig)
    (data_folder : option path) : M W (list Document) :=
  let data_folder :=
    match data_folder with
    | None => DATA_DIR config
    | Some d => d
    end in
  let all_chunks := [] in
  present <- fs_read (λ fs, OS.exists_ fs data_folder) ;;
  if negb present then ret all_chunks else
  names <- fs_try (λ fs, OS.listdir fs data_folder) ;;
  let pdf_files := List.filter is_pdf_name names in
  match pdf_files with
  | [] => ret all_chunks
  | _ => split_each config data_folder pdf_files all_chunks
  end.

(** What "the chunks of the files that succeeded, in file order" means:
    the outcome of [load_and_split_pdf] on each file in turn, and the
    chunks of the outcomes that are not exceptions. *)
Fixpoint per_file_outcomes (config : RAGConfig) (data_folder : path)
    (pdf_files : list string) (w : W) : list (exn + list Document) * W :=
  match pdf_files with
  | [] => ([], w)
  | filename :: rest =>
      let '(r, w1) := load_and_split_pdf config (OS.join data_folder filename) w in
      let '(rs, w2) := per_file_outcomes config data_folder rest w1 in
      (r :: rs, w2)
  end.

Definition chunks_of_successes (outcomes : list (exn + list Document))
  : list Document :=
  flat_map (λ r, match r with inr chunks => chunks | inl _ => [] end) outcomes.

(** *** [src/vectorstore.py] *)

Record VectorStoreManager : Type := mkVectorStoreManager {
  persist_directory : path;
  vector_store : option (Store B)
}.

Definition new_VectorStoreManager (config : RAGConfig) : VectorStoreManager :=
  mkVectorStoreManager (VECTOR_STORE_DIR config) None.

Definition set_vector_store (vs : Store B) (self : VectorStoreManager)
  : VectorStoreManager :=
  mkVectorStoreManager (persist_directory self) (Some vs).

(** [VectorStoreManager.create_vector_store] *)
Definition create_vector_store (chunks : list Document) (embeddings_model : Emb B)
  : M (VectorStoreManager * W) (Store B) :=
  reraise (
    self <- self_get ;;
    vs <- in_world (call (Chroma_from_documents B chunks embeddings_model
                            (persist_directory self))) ;;
    self_set (set_vector_store vs) ;;
    in_world (call (Chroma_persist B vs)) ;;
    ret vs).

(** [VectorStoreManager.load_vector_store] *)
Definition load_vector_store (embeddings_model : Emb B)
  : M (VectorStoreManager * W) (Store B) :=
  reraise (
    self <- self_get ;;
    vs <- in_world (call (Chroma B (persist_directory self) embeddings_model)) ;;
    self_set (set_vector_store vs) ;;
    ret vs).

(** [VectorStoreManager.clear_vector_store] *)
Definition clear_vector_store : M (VectorStoreManager * W) unit :=
  reraise (
    self <- self_get ;;
    present <- in_world (fs_read (λ fs, OS.exists_ fs (persist_directory self))) ;;
    if present then
      in_world (fs_update (λ fs, OS.rmtree fs (persist_directory self))) ;;
      in_world (fs_run (OS.makedirs (persist_directory self)))
    else ret tt).

(** *** [src/rag_chain.py] *)

Record RAGChain : Type := mkRAGChain {
  rc_config : RAGConfig;
  rc_vector_store : Store B;
  chain : option (Chain B)
}.

(** [RAGChain.__init__] *)
Definition new_RAGChain (config : RAGConfig) (vs : Store B) : RAGChain :=
  mkRAGChain config vs None.

Definition set_chain (c : Chain B) (self : RAGChain) : RAGChain :=
  mkRAGChain (rc_config self) (rc_vector_store self) (Some c).

(** [RAGChain.build_chain] *)
Definition build_chain : M (RAGChain * W) (Chain B) :=
  reraise (
    self <- self_get ;;
    c <- in_world (call (make_chain B (LLM_MODEL (rc_config self))
                           (CONTEXT_WINDOW (rc_config self))
                           (rc_vector_store self))) ;;
    self_set (set_chain c) ;;
    ret c).

(** [RAGChain.query] *)
Definition query (question : pyval) : M (RAGChain * W) string :=
  match question with
  | PyStr q =>
      if PyString.len (PyString.strip q) <? 3 then raise ValueError else
      self <- self_get ;;
      (match chain self with
       | None => build_chain ;; ret tt
       | Some _ => ret tt
       end) ;;
      reraise (
        self <- self_get ;;
        match chain self with
        | Some c => in_world (call (chain_invoke B c q))
        | None => raise (OtherError "AttributeError")
        end)
  | _ => raise ValueError
  end.

(** *** [src/rag_system.py] *)

(** The attributes of a [RAGSystem] that change after construction; the
    downloader and the document processor only hold the configuration. *)
Record RAGSystem : Type := mkRAGSystem {
  config : RAGConfig;
  embeddings_manager : EmbeddingsManager;
  vector_store_manager : VectorStoreManager;
  rag_chain : option RAGChain
}.

(** [RAGSystem.__init__] *)
Definition new_RAGSystem (config : RAGConfig) : RAGSystem :=
  mkRAGSystem config (mkEmbeddingsManager None)
    (new_VectorStoreManager config) None.

Definition set_embeddings_manager (m : EmbeddingsManager) (self : RAGSystem)
  : RAGSystem :=
  mkRAGSystem (config self) m (vector_store_manager self) (rag_chain self).

Definition set_vector_store_manager (m : VectorStoreManager) (self : RAGSystem)
  : RAGSystem :=
  mkRAGSystem (config self) (embeddings_manager self) m (rag_chain self).

Definition set_rag_chain (rc : option RAGChain) (self : RAGSystem) : RAGSystem :=
  mkRAGSystem (config self) (embeddings_manager self)
    (vector_store_manager self) rc.

(** [self.rag_chain.method(...)]; on [None] the attribute lookup fails. *)
Definition on_rag_chain {A} (c : M (RAGChain * W) A) : M (RAGSystem * W) A :=
  λ '(self, w),
    match rag_chain self with
    | Some rc =>
        let '(r, (rc', w')) := c (rc, w) in
        (r, (set_rag_chain (Some rc') self, w'))
    | None => (inl (OtherError "AttributeError"), (self, w))
    end.

Definition on_embeddings_manager {A} (c : M (EmbeddingsManager * W) A)
  : M (RAGSystem * W) A :=
  zoom embeddings_manager set_embeddings_manager c.

Definition on_vector_store_manager {A} (c : M (VectorStoreManager * W) A)
  : M (RAGSystem * W) A :=
  zoom vector_store_manager set_vector_store_manager c.

(** Step 2: [if download_new and pdf_filename: download_pdf(pdf_filename)];
    an empty file name is falsy. *)
Definition maybe_download (download_new : bool) (pdf_filename : option string)
  : M (RAGSystem * W) unit :=
  self <- self_get ;;
  match pdf_filename with
  | Some f =>
      if download_new && negb (String.eqb f "")
      then (pdf_path <- in_world (download_pdf (config self) f) ;; ret tt)
      else ret tt
  | None => ret tt
  end.

(** A method that leaves the [rag_chain] attribute as it found it. *)
Definition keeps_rag_chain {A} (c : M (RAGSystem * W) A) : Prop :=
  ∀ self w, rag_chain (c (self, w)).2.1 = rag_chain self.

(** The scan of step 3: regular files of [DATA_DIR] named [*.pdf]. *)
Definition scan_pdf_files (config : RAGConfig) : M W (list string) :=
  names <- fs_try (λ fs, OS.listdir fs (DATA_DIR config)) ;;
  fs_read (λ fs,
    List.filter
      (λ f, OS.isfile fs (OS.join (DATA_DIR config) f) && is_pdf_name f)
      names).

(** Step 5, second half: [clear_vector_store] on a forced rebuild when the
    directory is there, then [create_vector_store]. *)
Definition rebuild_vector_store (force_rebuild : bool)
    (chunks : list Document) (embeddings : Emb B)
  : M (RAGSystem * W) (Store B) :=
  reraise (
    self <- self_get ;;
    present <- in_world (fs_read (λ fs,
      OS.exists_ fs (persist_directory (vector_store_manager self)))) ;;
    (if force_rebuild && present
     then on_vector_store_manager clear_vector_store
     else ret tt) ;;
    on_vector_store_manager (create_vector_store chunks embeddings)).

(** [RAGSystem.initialize_system], steps 1 to 5 (lines 32 to 88): from
    the embeddings to the vector store that the chain will be bound to. *)
Definition initialize_steps_1_to_5 (download_new : bool)
    (pdf_filename : option string) (force_rebuild : bool)
  : M (RAGSystem * W) (Store B) :=
  self <- self_get ;;
  (* STEP 1: Initialize Embeddings *)
  embeddings <- on_embeddings_manager (initialize_embeddings (config self)) ;;
  (* STEP 2: Handle PDF Download (Optional) *)
  maybe_download download_new pdf_filename ;;
  (* STEP 3: Check Local PDFs *)
  pdf_files <- in_world (scan_pdf_files (config self)) ;;
  match pdf_files with
  | [] => raise FileNotFoundError
  | _ :: _ =>
    (* STEP 4: Load & Split All PDFs *)
    chunks <- in_world (load_and_split_all_pdfs (config self) None) ;;
    match chunks with
    | [] => raise ValueError
    | _ :: _ =>
      (* STEP 5: Load or Create Vector Store *)
      vector_store <-
        (if negb force_rebuild
         then try_except
                (vs <- on_vector_store_manager (load_vector_store embeddings) ;;
                 ret (Some vs))
                (λ _, ret None)
         else ret None) ;;
      match vector_store with
      | Some vs =>
          if force_rebuild
          then rebuild_vector_store force_rebuild chunks embeddings
          else ret vs
      | None => rebuild_vector_store force_rebuild chunks embeddings
      end
    end
  end.

(** [RAGSystem.initialize_system]: steps 1 to 5, then step 6 (lines 90
    to 97).  The timing decorator passes the result and any exception
    through. *)
Definition initialize_system (download_new : bool)
    (pdf_filename : option string) (force_rebuild : bool)
  : M (RAGSystem * W) (option RAGChain) :=
  vector_store <- initialize_steps_1_to_5 download_new pdf_filename force_rebuild ;;
  (* STEP 6: Build RAG Chain *)
  self <- self_get ;;
  self_set (set_rag_chain (Some (new_RAGChain (config self) vector_store))) ;;
  on_rag_chain build_chain ;;
  self <- self_get ;;
  ret (rag_chain self).

(** One entry of the list [run_queries] returns. *)
Inductive query_result : Type :=
| Answered (question : pyval) (answer : string)
| Errored (question : pyval) (error : exn).

(** The [for i, question in enumerate(questions, 1)] loop. *)
Fixpoint run_each_query (questions : list pyval) (results : list query_result)
  : M (RAGSystem * W) (list query_result) :=
  match questions with
  | [] => ret results
  | question :: rest =>
      results <-
        try_except (
          answer <- on_rag_chain (query question) ;;
          ret (results ++ [Answered question answer])%list)
        (λ e, ret (results ++ [Errored question e])%list) ;;
      run_each_query rest results
  end.

(** [RAGSystem.run_queries]; the result [None] is Python's [None], what
    a bare [return] gives. *)
Definition run_queries (questions : list pyval)
  : M (RAGSystem * W) (option (list query_result)) :=
  self <- self_get ;;
  match rag_chain self with
  | None => ret None
  | Some _ =>
      results <- run_each_query questions [] ;;
      ret (Some results)
  end.

End Core.

Arguments embeddings {B} _.
Arguments persist_directory {B} _.
Arguments vector_store {B} _.
Arguments rc_config {B} _.
Arguments rc_vector_store {B} _.
Arguments chain {B} _.
Arguments config {B} _.
Arguments embeddings_manager {B} _.
Arguments vector_store_manager {B} _.
Arguments rag_chain {B} _.

(** ** A concrete backend

    A small deterministic instance of [Backend], used to run the
    definitions on concrete worlds.  The bucket is a finite map from keys
    to bodies; a PDF is a file that starts with ["%PDF"]; the splitter
    keeps a non-empty page whole; a Chroma collection is the text it
    holds, kept in the file [chroma.sqlite3] of its directory.  As in
    langchain's wrapper, opening a collection is get-or-create: a
    directory without a collection opens as the empty collection. *)
Module Local.

Record Services : Type := mkServices {
  bucket : gmap string string;
  head_requests : nat;
  llm_up : bool
}.

Definition Collection : Type := path * string.

Definition index_file (dir : path) : path := "chroma.sqlite3" :: dir.

Definition stored_text (fs : FS) (dir : path) : string :=
  match fs !! index_file dir with
  | Some (File c) => c
  | _ => ""
  end.

Definition hf_embeddings (model_name : string) : Oracle Services string :=
  λ fs sv, (inr model_name, fs, sv).

Definition s3_head_object (bucket_name key : string) : Oracle Services unit :=
  λ fs sv,
    let sv' := mkServices (bucket sv) (S (head_requests sv)) (llm_up sv) in
    match bucket sv !! key with
    | Some _ => (inr tt, fs, sv')
    | None => (inl (ClientError "404"), fs, sv')
    end.

Definition s3_download_file (bucket_name key : string) (local_file : path)
  : Oracle Services unit :=
  λ fs sv,
    match bucket sv !! key with
    | Some body =>
        match OS.write_file fs local_file body with
        | inr fs' => (inr tt, fs', sv)
        | inl e => (inl e, fs, sv)
        end
    | None => (inl (ClientError "404"), fs, sv)
    end.

Definition pdf_load (pdf_path : path) : Oracle Services (list Document) :=
  λ fs sv,
    match fs !! pdf_path with
    | Some (File c) =>
        if String.prefix "%PDF" c
        then (inr [mkDocument c {["page" := PyInt 0]}], fs, sv)
        else (inl (OtherError "PdfStreamError"), fs, sv)
    | _ => (inl ValueError, fs, sv)
    end.

Definition whole_page (chunk_size chunk_overlap : Z) (text : string)
  : list string :=
  if String.eqb text "" then [] else [text].

Definition chroma_open (dir : path) (emb : string)
  : Oracle Services Collection :=
  λ fs sv, (inr (dir, stored_text fs dir), fs, sv).

Definition chroma_from_documents (docs : list Document) (emb : string)
    (dir : path) : Oracle Services Collection :=
  λ fs sv,
    (inr (dir, stored_text fs dir +:+ String.concat "" (map page_content docs)),
     fs, sv).

Definition chroma_persist (c : Collection) : Oracle Services unit :=
  λ fs sv,
    match OS.makedirs c.1 fs with
    | (inr _, fs1) =>
        match OS.write_file fs1 (index_file c.1) c.2 with
        | inr fs2 => (inr tt, fs2, sv)
        | inl e => (inl e, fs1, sv)
        end
    | (inl e, fs1) => (inl e, fs1, sv)
    end.

Definition ollama_chain (model : string) (num_ctx : Z) (c : Collection)
  : Oracle Services Collection :=
  λ fs sv,
    if llm_up sv then (inr c, fs, sv)
    else (inl (OtherError "ConnectionError"), fs, sv).

Definition ollama_invoke (c : Collection) (question : string)
  : Oracle Services string :=
  λ fs sv,
    if llm_up sv then (inr (c.2 +:+ "? " +:+ question), fs, sv)
    else (inl (OtherError "ConnectionError"), fs, sv).

Definition backend : Backend :=
  mkBackend Services string Collection Collection
    hf_embeddings s3_head_object s3_download_file pdf_load whole_page
    chroma_open chroma_from_documents chroma_persist
    ollama_chain ollama_invoke.

(** The default configuration of [config.py]. *)
Definition default_config : RAGConfig :=
  mkRAGConfig "all-MiniLM-L6-v2" "qwen2.5:3b-instruct" 4096 1000 200
    ["chroma_db"] ["data"] "raggy-1" "us-east-1".

Definition services (objects : list (string * string)) : Services :=
  mkServices (list_to_map objects) 0 true.

Definition world (entries : list (path * node))
    (objects : list (string * string)) : World Services :=
  mkWorld (list_to_map entries) (services objects) [].

(** Both directories exist and are empty, as [RAGConfig.__post_init__]
    leaves them on a fresh machine. *)
Definition fresh_world : World Services :=
  world [(["data"], Dir); (["chroma_db"], Dir)] [].

(** One PDF on disk, nothing indexed yet. *)
Definition one_pdf_world : World Services :=
  world [(["data"], Dir); (["a.pdf"; "data"], File "%PDF alpha");
         (["chroma_db"], Dir)] [].

(** No document on disk, a persisted index from an earlier run. *)
Definition index_only_world : World Services :=
  world [(["data"], Dir); (["chroma_db"], Dir);
         (index_file ["chroma_db"], File "%PDF alpha")] [].

(** One good PDF, one broken one and a text file. *)
Definition mixed_world : World Services :=
  world [(["data"], Dir); (["a.pdf"; "data"], File "%PDF alpha");
         (["b.PDF"; "data"], File "not a pdf");
         (["c.pdf"; "data"], File "%PDF gamma");
         (["notes.txt"; "data"], File "%PDF notes");
         (["chroma_db"], Dir)] [].

(** The index directory was removed behind the program's back. *)
Definition no_index_dir_world : World Services :=
  world [(["data"], Dir); (["a.pdf"; "data"], File "%PDF alpha")] [].

Definition system : RAGSystem backend := new_RAGSystem backend default_config.

Definition manager : VectorStoreManager backend :=
  new_VectorStoreManager backend default_config.

(** A system with a session from an earlier [initialize_system]. *)
Definition old_session : RAGChain backend :=
  set_chain backend (["chroma_db"], "%PDF alpha")
    (new_RAGChain backend default_config (["chroma_db"], "%PDF alpha")).

Definition ready_system : RAGSystem backend :=
  set_rag_chain backend (Some old_session) system.

(** One PDF on disk and the language model server down. *)
Definition llm_down_world : World Services :=
  mkWorld (fs one_pdf_world) (mkServices ∅ 0 false) [].

End Local.

(** ** More of the code

    The rest of [src/s3_loader.py], [RAGConfig.__post_init__] and the
    routes of [app.py] that drive the core. *)

(** A run that returned instead of raising. *)
Definition returned {S A : Type} (x : (exn + A) * S) : Prop :=
  match x.1 with
  | inr _ => True
  | inl _ => False
  end.

Section Callers.

Context (B : Backend).

(** *** [config.py] *)

(** [RAGConfig.__post_init__] *)
Definition post_init (config : RAGConfig) : M (World (Ext B)) unit :=
  fs_run (OS.makedirs (DATA_DIR config)) ;;
  fs_run (OS.makedirs (VECTOR_STORE_DIR config)).

(** *** [src/s3_loader.py], the rest *)

(** [botocore]'s [NoCredentialsError] and [PartialCredentialsError]. *)
Definition NoCredentialsError : exn := OtherError "NoCredentialsError".
Definition PartialCredentialsError : exn := OtherError "PartialCredentialsError".

Definition is_credentials_error (e : exn) : bool :=
  bool_decide (e = NoCredentialsError) || bool_decide (e = PartialCredentialsError).

(** The [except ClientError] clause shared by [__init__] and [list_pdfs]:
    code ['403'] becomes [PermissionError], the rest is raised again. *)
Definition map_403 {A} (e : exn) : M (World (Ext B)) A :=
  match e with
  | ClientError error_code =>
      if String.eqb error_code "403" then raise PermissionError else raise e
  | _ => raise e
  end.

(** [S3Downloader.__init__]; [boto3_client] is [boto3.client("s3", ...)]
    and [head_bucket] is [s3_client.head_bucket(Bucket=...)]. *)
Definition new_S3Downloader (boto3_client : Oracle (Ext B) unit)
    (head_bucket : string → Oracle (Ext B) unit) (config : RAGConfig)
  : M (World (Ext B)) unit :=
  try_except
    (call boto3_client ;;
     call (head_bucket (S3_BUCKET_NAME config)))
    (λ e,
       if is_credentials_error e
       then call boto3_client ;;
            reraise (call (head_bucket (S3_BUCKET_NAME config)))
       else map_403 e) ;;
  fs_run (OS.makedirs (DATA_DIR config)).

(** [S3Downloader.list_pdfs]; [list_objects_v2] gives the keys of the
    response's ['Contents'], or [None] when the response has none. *)
Definition list_pdfs (list_objects_v2 : string → Oracle (Ext B) (option (list string)))
    (config : RAGConfig) : M (World (Ext B)) (list string) :=
  try_except
    (response <- call (list_objects_v2 (S3_BUCKET_NAME config)) ;;
     match response with
     | Some keys => ret (List.filter is_pdf_name keys)
     | None => ret []
     end)
    map_403.

(** The [for filename in pdf_files] loop of [download_all_pdfs]. *)
Fixpoint download_each (config : RAGConfig) (pdf_files : list string)
    (downloaded_files : list path) : M (World (Ext B)) (list path) :=
  match pdf_files with
  | [] => ret downloaded_files
  | filename :: rest =>
      downloaded_files <-
        try_except
          (local_path <- download_pdf B config filename ;;
           ret (downloaded_files ++ [local_path])%list)
          (λ _, ret downloaded_files) ;;
      download_each config rest downloaded_files
  end.

(** [S3Downloader.download_all_pdfs] *)
Definition download_all_pdfs
    (list_objects_v2 : string → Oracle (Ext B) (option (list string)))
    (config : RAGConfig) : M (World (Ext B)) (list path) :=
  pdf_files <- list_pdfs list_objects_v2 config ;;
  download_each config pdf_files [].

(** *** [app.py] *)

(** What a JSON route answers: [jsonify(body)], [jsonify({'error': msg}),
    400] or [jsonify({'error': str(e)}), 500]. *)
Inductive response (A : Type) : Type :=
| Success (body : A)
| BadRequest (error : string)
| ServerError (error : exn).
Arguments Success {A} _.
Arguments BadRequest {A} _.
Arguments ServerError {A} _.

Definition status_code {A} (r : response A) : Z :=
  match r with
  | Success _ => 200
  | BadRequest _ => 400
  | ServerError _ => 500
  end.

(** [initialize_rag_system()] *)
Definition initialize_rag_system : M (RAGSystem B * World (Ext B)) bool :=
  try_except
    (self <- self_get ;;
     (match rag_chain self with
      | None => initialize_system B false None false ;; ret tt
      | Some _ => ret tt
      end) ;;
     ret true)
    (λ _, ret false).

(** The body of [api_ask], for a request whose JSON is an object or
    missing: [data] is [None] for no body and the object's fields
    otherwise.  A failed [initialize_rag_system] is reported with the
    message ['RAG system not initialized'], here [OtherError] of it. *)
Definition api_ask (data : option (gmap string pyval))
  : M (RAGSystem B * World (Ext B)) (response (pyval * string)) :=
  try_except
    (match data with
     | None => ret (BadRequest "Question is required")
     | Some fields =>
         if bool_decide (fields = ∅) then ret (BadRequest "Question is required")
         else
         match fields !! "question" with
         | None => ret (BadRequest "Question is required")
         | Some question =>
             if query_rejects question
             then ret (BadRequest
                         "Question must be a non-empty string with at least 3 characters")
             else
               ready <- initialize_rag_system ;;
               if negb ready
               then ret (ServerError (OtherError "RAG system not initialized"))
               else
                 answer <- on_rag_chain B (query B question) ;;
                 ret (Success (question, answer))
         end
     end)
    (λ e, ret (ServerError e)).

(** The body of [api_list_documents]. *)
Definition api_list_documents (config : RAGConfig)
  : M (World (Ext B)) (response (list string)) :=
  try_except
    (present <- fs_read (λ fs, OS.exists_ fs (DATA_DIR config)) ;;
     documents <-
       (if present
        then names <- fs_try (λ fs, OS.listdir fs (DATA_DIR config)) ;;
             ret (List.filter is_pdf_name names)
        else ret []) ;;
     ret (Success documents))
    (λ e, ret (ServerError e)).

(** The body of [api_upload]; [file] is [None] when the request has no
    ['file'] part and otherwise the part's file name and content.  The file
    name is one path component. *)
Definition api_upload (config : RAGConfig) (file : option (string * string))
  : M (World (Ext B)) (response string) :=
  try_except
    (match file with
     | None => ret (BadRequest "No file provided")
     | Some (filename, content) =>
         if String.eqb filename "" || negb (is_pdf_name filename)
         then ret (BadRequest "Invalid file type. Only PDF files are allowed")
         else
           let filepath := OS.join (DATA_DIR config) filename in
           fs_update (λ fs, OS.write_file fs filepath content) ;;
           ret (Success filename)
     end)
    (λ e, ret (ServerError e)).

End Callers.

Arguments Success {A} _.
Arguments BadRequest {A} _.
Arguments ServerError {A} _.

(** What the outer [except] clauses of [download_pdf] turn an exception
    into: the codes [NoSuchKey] and [NoSuchBucket] become
    [FileNotFoundError], [403] becomes [PermissionError], the rest stays. *)
Definition download_error (e : exn) : exn :=
  match e with
  | ClientError error_code =>
      if String.eqb error_code "NoSuchKey" then FileNotFoundError
      else if String.eqb error_code "NoSuchBucket" then FileNotFoundError
      else if String.eqb error_code "403" then PermissionError
      else e
  | _ => e
  end.

(** The same for an exception of [head_object], which first passes the
    inner clause: code [404] becomes [FileNotFoundError]. *)
Definition head_error (e : exn) : exn :=
  match e with
  | ClientError code =>
      if String.eqb code "404" then FileNotFoundError else download_error e
  | _ => e
  end.

(** A file name that holds a ["/"]: [os.path.join] would then name an
    entry deeper than [DATA_DIR]. *)
Fixpoint has_separator (name : string) : bool :=
  match name with
  | EmptyString => false
  | String c rest => Ascii.eqb c "/" || has_separator rest
  end.

(** The ["question"] entry of one result of [run_queries]. *)
Definition result_question (r : query_result) : pyval :=
  match r with
  | Answered question _ => question
  | Errored question _ => question
  end.


(** A method of [RAGSystem] that leaves the attribute [proj] alone,
    whether it returns or raises. *)
Definition keeps {B : Backend} {X A : Type} (proj : RAGSystem B → X)
    (c : M (RAGSystem B * World (Ext B)) A) : Prop :=
  ∀ self w, proj (c (self, w)).2.1 = proj self.

(** Concrete S3 listing and connection for the [Local] backend. *)
Module LocalS3.

Definition list_objects (bucket_name : string)
  : Oracle Local.Services (option (list string)) :=
  λ fs sv,
    match map_to_list (Local.bucket sv) with
    | [] => (inr None, fs, sv)
    | objects => (inr (Some (map fst objects)), fs, sv)
    end.

Definition connect : Oracle Local.Services unit :=
  λ fs sv, (inr tt, fs, sv).

Definition head_bucket (bucket_name : string) : Oracle Local.Services unit :=
  λ fs sv, (inr tt, fs, sv).

(** A bucket with two PDFs and a text file, and an empty data directory. *)
Definition stocked_world : World Local.Services :=
  Local.world [(["data"], Dir); (["chroma_db"], Dir)]
    [("a.pdf", "%PDF alpha"); ("b.PDF", "%PDF beta"); ("notes.txt", "text")].

(** Nothing on disk at all. *)
Definition bare_world : World Local.Services := Local.world [] [].

(** A file named [*.pdf] that is no PDF, and an index from an earlier run. *)
Definition broken_pdf_world : World Local.Services :=
  Local.world [(["data"], Dir); (["b.pdf"; "data"], File "not a pdf");
               (["chroma_db"], Dir);
               (Local.index_file ["chroma_db"], File "%PDF alpha")] [].

(** The system once step 1 has stored the embeddings. *)
Definition embedded_system : RAGSystem Local.backend :=
  set_embeddings_manager Local.backend
    (mkEmbeddingsManager Local.backend (Some "all-MiniLM-L6-v2")) Local.system.

(** A backend whose [Chroma] constructor raises on a directory without a
    persisted collection; everything else as in [Local.backend]. *)
Definition chroma_strict (dir : path) (emb : string)
  : Oracle Local.Services Local.Collection :=
  λ fs sv,
    match fs !! Local.index_file dir with
    | Some (File c) => (inr (dir, c), fs, sv)
    | _ => (inl (OtherError "InvalidCollectionException"), fs, sv)
    end.

Definition strict_backend : Backend :=
  mkBackend Local.Services string Local.Collection Local.Collection
    Local.hf_embeddings Local.s3_head_object Local.s3_download_file
    Local.pdf_load Local.whole_page
    chroma_strict Local.chroma_from_documents Local.chroma_persist
    Local.ollama_chain Local.ollama_invoke.

Definition strict_system : RAGSystem strict_backend :=
  new_RAGSystem strict_backend Local.default_config.

Definition strict_embedded_system : RAGSystem strict_backend :=
  set_embeddings_manager strict_backend
    (mkEmbeddingsManager strict_backend (Some "all-MiniLM-L6-v2")) strict_system.

(** The only chunk of [Local.one_pdf_world]. *)
Definition alpha_chunk : Document :=
  mkDocument "%PDF alpha"
    (<["page" := PyInt 1]> (<["source" := PyStr "a.pdf"]> {["page" := PyInt 0]})).

End LocalS3.

(** * Properties *)

(** ** The monad *)

Section MonadFacts.

Context {S A : Type}.

Lemma reraise_run (c : M S A) (s : S) : reraise c s = c s.
Proof. unfold reraise, try_except, raise. by destruct (c s) as [[e|a] s']. Qed.

Lemma bind_run_inr {B : Type} (c : M S A) (k : A → M S B) s a s' :
  c s = (inr a, s') → bind c k s = k a s'.
Proof. intros H. unfold bind. by rewrite H. Qed.

Lemma bind_run_inl {B : Type} (c : M S A) (k : A → M S B) s e s' :
  c s = (inl e, s') → bind c k s = (inl e, s').
Proof. intros H. unfold bind. by rewrite H. Qed.

End MonadFacts.

Lemma pair_eta_fst {A B : Type} (x : A * B) (a : A) : x.1 = a → x = (a, x.2).
Proof. destruct x. simpl. by intros ->. Qed.

(** ** Question validation (C4) *)

Example strip_examples :
  PyString.strip "  hi  " = "hi" ∧ PyString.strip "  " = ""
  ∧ PyString.strip " a b " = "a b" ∧ PyString.endswith "Doc.PDF" ".pdf" = false
  ∧ PyString.endswith (PyString.lower "Doc.PDF") ".pdf" = true.
Proof. repeat split; reflexivity. Qed.



Lemma query_rejected {B : Backend} (question : pyval) (st : RAGChain B * World (Ext B)) :
  query_rejects question = true → query B question st = (inl ValueError, st).
Proof.
  destruct question; simpl; try reflexivity.
  intros ->. reflexivity.
Qed.

Lemma query_on_built_chain {B : Backend} (s : string) (rc : RAGChain B)
    (w : World (Ext B)) (c : Chain B) :
  query_rejects (PyStr s) = false → chain rc = Some c →
  query B (PyStr s) (rc, w) = in_world (call (chain_invoke B c s)) (rc, w).
Proof.
  simpl. intros Hlen Hc. unfold query. rewrite Hlen.
  unfold bind at 1. simpl. rewrite Hc. unfold bind at 1. simpl.
  rewrite reraise_run. unfold bind. simpl. by rewrite Hc.
Qed.



(** ** Lazy construction of the chain (C9) *)

Lemma build_chain_run {B : Backend} (rc : RAGChain B) (w : World (Ext B)) :
  build_chain B (rc, w)
  = match make_chain B (LLM_MODEL (rc_config rc)) (CONTEXT_WINDOW (rc_config rc))
            (rc_vector_store rc) (fs w) (ext w) with
    | (inr c, fs', ext') => (inr c, (set_chain B c rc, mkWorld fs' ext' (sleeps w)))
    | (inl e, fs', ext') => (inl e, (rc, mkWorld fs' ext' (sleeps w)))
    end.
Proof.
  unfold build_chain. rewrite reraise_run. unfold bind, self_get, in_world, call.
  simpl. by destruct (make_chain B _ _ _ _ _) as [[[e|c] fs'] ext'].
Qed.

Lemma query_unbuilt_is_build_then_query {B : Backend} (question : pyval)
    (rc : RAGChain B) (w : World (Ext B)) :
  query_rejects question = false → chain rc = None →
  query B question (rc, w) = bind (build_chain B) (λ _, query B question) (rc, w).
Proof.
  destruct question as [| | | s |]; simpl; try discriminate.
  intros Hlen Hnone. unfold query. rewrite Hlen.
  unfold bind, self_get. simpl. rewrite Hnone, build_chain_run.
  destruct (make_chain B _ _ _ _ _) as [[[e|c] fs'] ext']; [reflexivity |].
  simpl. rewrite !reraise_run. reflexivity.
Qed.

(** C9: for a question that passes the guard, [RAGChain.query] on a session
    whose chain was never built does not fail for want of a chain: when
    the construction of the chain and its invocation succeed, the answer
    is the chain's answer and the session's [chain] field now holds the
    chain that was built. *)
Theorem query_builds_chain_lazily (B : Backend) (s : string) (rc : RAGChain B)
    (w : World (Ext B)) (c : Chain B) (fs1 fs2 : FS) (ext1 ext2 : Ext B)
    (answer : string) :
  query_rejects (PyStr s) = false →
  chain rc = None →
  make_chain B (LLM_MODEL (rc_config rc)) (CONTEXT_WINDOW (rc_config rc))
    (rc_vector_store rc) (fs w) (ext w) = (inr c, fs1, ext1) →
  chain_invoke B c s fs1 ext1 = (inr answer, fs2, ext2) →
  query B (PyStr s) (rc, w)
  = (inr answer, (set_chain B c rc, mkWorld fs2 ext2 (sleeps w)))
  ∧ chain (set_chain B c rc) = Some c.
Proof.
  intros Hq Hnone Hmk Hinv. split; [| reflexivity].
  rewrite query_unbuilt_is_build_then_query by done.
  unfold bind. rewrite build_chain_run, Hmk.
  rewrite query_on_built_chain with (c := c) by done.
  unfold in_world, call. simpl. by rewrite Hinv.
Qed.

Lemma query_builds_chain_lazily_witness :
  query Local.backend (PyStr "what is alpha?")
    (new_RAGChain Local.backend Local.default_config (["chroma_db"], "alpha"),
     Local.fresh_world)
  = (inr "alpha? what is alpha?",
     (set_chain Local.backend (["chroma_db"], "alpha")
        (new_RAGChain Local.backend Local.default_config (["chroma_db"], "alpha")),
      mkWorld (fs Local.fresh_world) (ext Local.fresh_world)
        (sleeps Local.fresh_world)))
  ∧ chain (set_chain Local.backend (["chroma_db"], "alpha")
             (new_RAGChain Local.backend Local.default_config (["chroma_db"], "alpha")))
    = Some (["chroma_db"], "alpha").
Proof.
  apply (query_builds_chain_lazily Local.backend "what is alpha?"
           (new_RAGChain Local.backend Local.default_config (["chroma_db"], "alpha"))
           Local.fresh_world (["chroma_db"], "alpha")
           (fs Local.fresh_world) (fs Local.fresh_world)
           (ext Local.fresh_world) (ext Local.fresh_world));
    reflexivity.
Defined.

(** ** Queries without a session (C5) *)

(** C5, as stated, fails: on a system that was never initialised
    [run_queries] returns (Python's [None]); no exception reaches the
    caller. *)
Lemma run_queries_uninitialised_returns_none :
  rag_chain Local.system = None
  ∧ run_queries Local.backend [PyStr "what is alpha?"]
      (Local.system, Local.one_pdf_world)
    = (inr None, (Local.system, Local.one_pdf_world))
  ∧ ∀ e, fst (run_queries Local.backend [PyStr "what is alpha?"]
                (Local.system, Local.one_pdf_world)) ≠ inl e.
Proof. repeat split; intros; discriminate. Qed.

(** C5, amended: with no session bound ([rag_chain] is [None]),
    [run_queries] returns [None] without raising and without touching the
    system or the world; no question is run. *)
Theorem run_queries_without_session (B : Backend) (questions : list pyval)
    (self : RAGSystem B) (w : World (Ext B)) :
  rag_chain self = None →
  run_queries B questions (self, w) = (inr None, (self, w)).
Proof.
  intros Hnone. unfold run_queries, bind, self_get. simpl. by rewrite Hnone.
Qed.

Lemma run_queries_without_session_witness :
  run_queries Local.backend [PyStr "what is alpha?"; PyInt 3]
    (Local.system, Local.fresh_world)
  = (inr None, (Local.system, Local.fresh_world)).
Proof.
  apply (run_queries_without_session Local.backend
           [PyStr "what is alpha?"; PyInt 3] Local.system Local.fresh_world).
  reflexivity.
Defined.

(** ** Splitting a directory of PDFs (C6) *)

Lemma split_each_run {B : Backend} (config : RAGConfig) (data_folder : path)
    (pdf_files : list string) (all_chunks : list Document) (w : World (Ext B)) :
  split_each B config data_folder pdf_files all_chunks w
  = (inr (all_chunks
          ++ chunks_of_successes
               (per_file_outcomes B config data_folder pdf_files w).1)%list,
     (per_file_outcomes B config data_folder pdf_files w).2).
Proof.
  revert all_chunks w.
  induction pdf_files as [| filename rest IH]; intros all_chunks w; simpl.
  - unfold ret. by rewrite app_nil_r.
  - unfold bind at 1, try_except, bind at 1.
    destruct (load_and_split_pdf B config (OS.join data_folder filename) w)
      as [[e | chunks] w1]; simpl; rewrite IH;
      destruct (per_file_outcomes B config data_folder rest w1) as [rs w2];
      simpl; [reflexivity |].
    by rewrite app_assoc.
Qed.

Lemma listdir_exists (fs0 : FS) (d : path) (names : list string) :
  OS.listdir fs0 d = inr names → OS.exists_ fs0 d = true.
Proof.
  unfold OS.listdir, OS.exists_.
  destruct (OS.kind fs0 d) as [[c |] |]; by intros.
Qed.

(** C6: [load_and_split_all_pdfs] never raises over a directory: a file
    whose processing fails is passed over and the result is, in listing
    order, the chunks of the files that were processed; a directory with
    no [*.pdf] name, and a folder that does not exist, give the empty
    list. *)
Theorem load_and_split_all_pdfs_skips_failures (B : Backend) (config : RAGConfig)
    (data_folder : option path) (w : World (Ext B)) :
  let folder := match data_folder with None => DATA_DIR config | Some d => d end in
  (OS.exists_ (fs w) folder = false
   → load_and_split_all_pdfs B config data_folder w = (inr [], w))
  ∧ (∀ names, OS.listdir (fs w) folder = inr names →
       let outcomes :=
         per_file_outcomes B config folder (List.filter is_pdf_name names) w in
       load_and_split_all_pdfs B config data_folder w
       = (inr (chunks_of_successes outcomes.1), outcomes.2)
       ∧ (List.filter is_pdf_name names = []
          → load_and_split_all_pdfs B config data_folder w = (inr [], w))).
Proof.
  intros folder. split.
  - intros Hex. unfold load_and_split_all_pdfs. fold folder.
    unfold bind, fs_read. simpl. by rewrite Hex.
  - intros names Hls outcomes.
    assert (load_and_split_all_pdfs B config data_folder w
            = (inr (chunks_of_successes outcomes.1), outcomes.2)) as Hrun.
    { unfold load_and_split_all_pdfs. fold folder.
      unfold bind, fs_read, fs_try. cbv beta.
      rewrite (listdir_exists _ _ _ Hls). cbn [negb]. cbv beta iota.
      rewrite Hls. subst outcomes.
      destruct (List.filter is_pdf_name names) as [| f files] eqn:Hpdf;
        [reflexivity |].
      by rewrite split_each_run. }
    split; [exact Hrun |].
    intros Hnil. rewrite Hrun. subst outcomes. by rewrite Hnil.
Qed.

(** In a folder with a good PDF, a broken one and a text file, the broken
    PDF is passed over and the text file is not looked at. *)
Example split_mixed_folder :
  match fst (load_and_split_all_pdfs Local.backend Local.default_config None
               Local.mixed_world) with
  | inr chunks => map page_content chunks = ["%PDF gamma"; "%PDF alpha"]
  | inl _ => False
  end
  ∧ (per_file_outcomes Local.backend Local.default_config ["data"]
       ["b.PDF"] Local.mixed_world).1
    = [inl (OtherError "PdfStreamError")].
Proof. split; vm_compute; reflexivity. Qed.

(** ** Retries of the download (C3) *)

Lemma wait_exponential_first_two :
  wait_exponential 1 4 10 1 = 4 ∧ wait_exponential 1 4 10 2 = 4.
Proof. split; reflexivity. Qed.





(** ** The filesystem operations *)

Section OSFacts.

Implicit Types (fs : FS) (p k h : path).

Lemma kind_cons fs (t : string) h : OS.kind fs (t :: h) = fs !! (t :: h).
Proof. reflexivity. Qed.

Lemma kind_lookup fs p : p ≠ [] → OS.kind fs p = fs !! p.
Proof. by destruct p. Qed.

Lemma rmtree_lookup fs p fs1 k :
  OS.rmtree fs p = inr fs1 →
  fs1 !! k = if decide (p `suffix_of` k) then None else fs !! k.
Proof.
  unfold OS.rmtree. destruct (OS.kind fs p) as [[c |] |]; intros [= <-].
  case_decide as Hsuf.
  - apply map_lookup_filter_None_2. right. intros x _ Hn. by apply Hn.
  - destruct (fs !! k) as [x |] eqn:Hk.
    + by apply map_lookup_filter_Some_2.
    + apply map_lookup_filter_None_2. by left.
Qed.

Lemma rmtree_inr fs p fs1 : OS.rmtree fs p = inr fs1 → OS.kind fs p = Some Dir.
Proof.
  unfold OS.rmtree. by destruct (OS.kind fs p) as [[c |] |].
Qed.

Lemma only_adds_dirs_refl p fs : OS.only_adds_dirs p fs fs.
Proof. intros k. by left. Qed.

Lemma only_adds_dirs_cons (t : string) h fs fs' :
  OS.only_adds_dirs h fs fs' → OS.only_adds_dirs (t :: h) fs fs'.
Proof.
  intros H k. destruct (H k) as [-> | (? & ? & ? & ?)]; [by left |].
  right. repeat split; try done. by apply suffix_cons_r.
Qed.

Lemma only_adds_dirs_trans p fs1 fs2 fs3 :
  OS.only_adds_dirs p fs1 fs2 → OS.only_adds_dirs p fs2 fs3 →
  OS.only_adds_dirs p fs1 fs3.
Proof.
  intros H12 H23 k.
  destruct (H23 k) as [-> | (Hn & -> & Hs & Hk)]; [apply H12 |].
  right. destruct (H12 k) as [<- | (_ & Hd & _)]; [done | congruence].
Qed.

(** [mkdir_exist_ok] either leaves the disk alone or adds [p] below an
    existing directory. *)
Lemma mkdir_exist_ok_spec p fs r fs' :
  OS.mkdir_exist_ok p fs = (r, fs') →
  (fs' = fs ∧ (r = inr tt → OS.kind fs p = Some Dir))
  ∨ (r = inr tt ∧ p ≠ [] ∧ fs !! p = None
     ∧ OS.kind fs (tail p) = Some Dir ∧ fs' = <[p := Dir]> fs).
Proof.
  unfold OS.mkdir_exist_ok, OS.mkdir, OS.isdir.
  destruct (OS.kind fs p) as [[c |] |] eqn:Hp; simpl.
  - intros [= <- <-]. left. by split.
  - intros [= <- <-]. by left.
  - destruct (OS.kind fs (tail p)) as [[c |] |] eqn:Hh; simpl.
    + intros [= <- <-]. left. by split.
    + intros [= <- <-]. right.
      assert (p ≠ []) as Hne by (by intros ->).
      repeat split; try done. by rewrite <- kind_lookup.
    + intros [= <- <-]. left. by split.
Qed.

Lemma pass_FileExistsError_snd (x : (exn + unit) * FS) :
  (OS.pass_FileExistsError x).2 = x.2.
Proof. by destruct x as [[[] | []] fs0]. Qed.

(** The disk after [makedirs p], whatever its outcome. *)
Lemma makedirs_only_adds_dirs p :
  ∀ fs r fs', OS.makedirs p fs = (r, fs') → OS.only_adds_dirs p fs fs'.
Proof.
  induction p as [| t h IH]; intros fs r fs' Hrun.
  - simpl in Hrun.
    destruct (mkdir_exist_ok_spec _ _ _ _ Hrun) as [[-> _] | (_ & Hne & _)];
      [apply only_adds_dirs_refl | done].
  - simpl in Hrun.
    destruct (if negb (bool_decide (h = [])) && negb (OS.exists_ fs h)
              then OS.pass_FileExistsError (OS.makedirs h fs)
              else (inr tt, fs)) as [r1 fs1] eqn:Hparents.
    assert (OS.only_adds_dirs (t :: h) fs fs1) as Hframe.
    { apply only_adds_dirs_cons.
      destruct (negb (bool_decide (h = [])) && negb (OS.exists_ fs h)).
      - destruct (OS.makedirs h fs) as [r0 fs0] eqn:Hrec.
        pose proof (pass_FileExistsError_snd (r0, fs0)) as Hsnd.
        rewrite Hparents in Hsnd. simpl in Hsnd. subst fs1. by eapply IH.
      - injection Hparents as <- <-. apply only_adds_dirs_refl. }
    destruct r1 as [e | []].
    + by injection Hrun as <- <-.
    + destruct (mkdir_exist_ok_spec _ _ _ _ Hrun)
        as [[-> _] | (_ & Hne & Hnone & _ & ->)]; [done |].
      eapply only_adds_dirs_trans; [exact Hframe |].
      intros k. destruct (decide (k = t :: h)) as [-> | Hk].
      * right. by rewrite lookup_insert_eq.
      * left. by rewrite lookup_insert_ne.
Qed.

Lemma makedirs_ok_isdir p fs fs' :
  OS.makedirs p fs = (inr tt, fs') → OS.kind fs' p = Some Dir.
Proof.
  destruct p as [| t h]; [done |]. simpl. intros Hrun.
  destruct (if negb (bool_decide (h = [])) && negb (OS.exists_ fs h)
            then OS.pass_FileExistsError (OS.makedirs h fs)
            else (inr tt, fs)) as [[e | []] fs1]; [done |].
  destruct (mkdir_exist_ok_spec _ _ _ _ Hrun)
    as [[-> Hk] | (_ & _ & _ & _ & ->)]; [by apply Hk |].
  by rewrite lookup_insert_eq.
Qed.

Lemma not_below_parent (t : string) h k :
  (t :: h) `suffix_of` k → ¬ k `suffix_of` h.
Proof.
  intros H1 H2. apply (suffix_cons_not t h). by etrans.
Qed.

(** A [makedirs] of an absent [p]: on success [p] was added, as the last
    step, below an existing directory; on failure [p] is still absent. *)
Lemma makedirs_absent (t : string) h fs r fs' :
  OS.makedirs (t :: h) fs = (r, fs') → fs !! (t :: h) = None →
  match r with
  | inr _ =>
      ∃ fs1, OS.only_adds_dirs h fs fs1 ∧ fs1 !! (t :: h) = None
             ∧ OS.kind fs1 h = Some Dir ∧ fs' = <[t :: h := Dir]> fs1
  | inl _ => fs' !! (t :: h) = None
  end.
Proof.
  simpl. intros Hrun Hnone.
  destruct (if negb (bool_decide (h = [])) && negb (OS.exists_ fs h)
            then OS.pass_FileExistsError (OS.makedirs h fs)
            else (inr tt, fs)) as [r1 fs1] eqn:Hparents.
  assert (OS.only_adds_dirs h fs fs1) as Hframe.
  { destruct (negb (bool_decide (h = [])) && negb (OS.exists_ fs h)).
    - destruct (OS.makedirs h fs) as [r0 fs0] eqn:Hrec.
      pose proof (pass_FileExistsError_snd (r0, fs0)) as Hsnd.
      rewrite Hparents in Hsnd. simpl in Hsnd. subst fs1.
      by eapply makedirs_only_adds_dirs.
    - injection Hparents as <- <-. apply only_adds_dirs_refl. }
  assert (fs1 !! (t :: h) = None) as Hnone1.
  { destruct (Hframe (t :: h)) as [-> | (_ & _ & Hs & _)]; [done |].
    by destruct (suffix_cons_not t h). }
  destruct r1 as [e | []].
  - by injection Hrun as <- <-.
  - destruct (mkdir_exist_ok_spec _ _ _ _ Hrun)
      as [[-> Hk] | (-> & _ & _ & Hh & ->)].
    + destruct r as [e | []]; [done |].
      specialize (Hk eq_refl). rewrite kind_cons in Hk. congruence.
    + by exists fs1.
Qed.

(** [makedirs] of an absent [p] whose parent is a directory adds [p]. *)
Lemma makedirs_below_dir (t : string) h fs :
  fs !! (t :: h) = None → OS.kind fs h = Some Dir →
  OS.makedirs (t :: h) fs = (inr tt, <[t :: h := Dir]> fs).
Proof.
  intros Hnone Hh. simpl. unfold OS.exists_. rewrite Hh.
  rewrite andb_false_r. unfold OS.mkdir_exist_ok, OS.mkdir.
  rewrite kind_cons, Hnone. simpl. by rewrite Hh.
Qed.

End OSFacts.

(** ** Clearing the persisted index (C7, C10) *)

Lemma clear_vector_store_run {B : Backend} (self : VectorStoreManager B)
    (w : World (Ext B)) :
  clear_vector_store B (self, w)
  = if OS.exists_ (fs w) (persist_directory self)
    then match OS.rmtree (fs w) (persist_directory self) with
         | inl e => (inl e, (self, w))
         | inr fs1 =>
             ((OS.makedirs (persist_directory self) fs1).1,
              (self, mkWorld (OS.makedirs (persist_directory self) fs1).2
                       (ext w) (sleeps w)))
         end
    else (inr tt, (self, w)).
Proof.
  unfold clear_vector_store. rewrite reraise_run.
  unfold bind, self_get, in_world, fs_read, fs_update, fs_run. simpl.
  destruct (OS.exists_ (fs w) (persist_directory self)); [| reflexivity].
  destruct (OS.rmtree (fs w) (persist_directory self)) as [e | fs1];
    [reflexivity |].
  simpl. by destruct (OS.makedirs (persist_directory self) fs1) as [[e | []] fs2].
Qed.

Lemma exists_false_lookup (fs0 : FS) (p : path) :
  OS.exists_ fs0 p = false ↔ OS.kind fs0 p = None.
Proof. unfold OS.exists_. destruct (OS.kind fs0 p); naive_solver. Qed.

(** C10, as stated, fails: when the directory is not there,
    [clear_vector_store] returns without an error and without creating
    it. *)
Lemma clear_vector_store_leaves_absent_directory_absent :
  let run := clear_vector_store Local.backend
               (Local.manager, Local.no_index_dir_world) in
  run.1 = inr tt
  ∧ OS.exists_ (fs run.2.2) (persist_directory Local.manager) = false
  ∧ ¬ OS.empty_dir (fs run.2.2) (persist_directory Local.manager).
Proof.
  split; [reflexivity |]. split; [reflexivity |].
  intros [Hkind _]. vm_compute in Hkind. discriminate.
Qed.

(** C10, amended: when the persistence directory exists at the call and
    [clear_vector_store] returns, the directory exists and has nothing in
    or below it (the tree was deleted and the directory made again); when
    the path does not exist at the call, nothing is done and it still does
    not exist. *)
Theorem clear_vector_store_empties_existing_directory (B : Backend)
    (self : VectorStoreManager B) (w : World (Ext B))
    (st' : VectorStoreManager B * World (Ext B)) :
  clear_vector_store B (self, w) = (inr tt, st') →
  (OS.exists_ (fs w) (persist_directory self) = true
   → OS.empty_dir (fs st'.2) (persist_directory self))
  ∧ (OS.exists_ (fs w) (persist_directory self) = false
     → st' = (self, w)
       ∧ OS.exists_ (fs st'.2) (persist_directory self) = false).
Proof.
  rewrite clear_vector_store_run. set (p := persist_directory self).
  destruct (OS.exists_ (fs w) p) eqn:Hex.
  - destruct (OS.rmtree (fs w) p) as [e | fs1] eqn:Hrm; [discriminate |].
    destruct (OS.makedirs p fs1) as [r fs2] eqn:Hmk. simpl.
    intros [= -> <-]. split; [intros _ | discriminate]. simpl. split.
    + by apply makedirs_ok_isdir with (fs := fs1).
    + intros k Hbelow Hne.
      destruct (makedirs_only_adds_dirs p fs1 _ fs2 Hmk k)
        as [-> | (_ & _ & Hup & _)].
      * rewrite (rmtree_lookup _ _ _ k Hrm). by rewrite decide_True.
      * destruct Hne. by apply (anti_symm suffix).
  - intros [= <-]. split; [discriminate |]. by intros _.
Qed.

Lemma clear_vector_store_empties_existing_directory_witness :
  OS.empty_dir
    (fs (clear_vector_store Local.backend
           (Local.manager, Local.index_only_world)).2.2)
    (persist_directory Local.manager).
Proof.
  apply (clear_vector_store_empties_existing_directory Local.backend
           Local.manager Local.index_only_world
           (clear_vector_store Local.backend
              (Local.manager, Local.index_only_world)).2);
    reflexivity.
Defined.

(** After a [clear_vector_store] of an existing directory that returned,
    clearing again changes nothing. *)
Lemma clear_after_clear {B : Backend} (self : VectorStoreManager B)
    (fs0 fs1 fs2 : FS) (ex : Ext B) (sl : list Z) :
  OS.rmtree fs0 (persist_directory self) = inr fs1 →
  OS.makedirs (persist_directory self) fs1 = (inr tt, fs2) →
  clear_vector_store B (self, mkWorld fs2 ex sl)
  = (inr tt, (self, mkWorld fs2 ex sl)).
Proof.
  set (p := persist_directory self). intros Hrm Hmk.
  rewrite clear_vector_store_run. fold p. simpl.
  pose proof (makedirs_ok_isdir _ _ _ Hmk) as Hdir.
  unfold OS.exists_, OS.rmtree. rewrite Hdir.
  destruct p as [| t h] eqn:Hp.
  - (* the working directory: everything went, and goes again *)
    assert (∀ k, fs2 !! k = None) as Hempty.
    { intros k. simpl in Hmk. injection Hmk as <-.
      rewrite (rmtree_lookup _ _ _ k Hrm).
      rewrite decide_True; [done | apply suffix_nil]. }
    assert (filter (λ kv : path * node, ¬ [] `suffix_of` kv.1) fs2 = fs2) as ->.
    { apply map_eq. intros k. rewrite Hempty.
      apply map_lookup_filter_None_2. by left. }
    reflexivity.
  - assert (fs1 !! (t :: h) = None) as Hnone.
    { rewrite (rmtree_lookup _ _ _ (t :: h) Hrm). by rewrite decide_True. }
    pose proof (makedirs_absent t h fs1 _ fs2 Hmk Hnone)
      as (fs1' & Hframe & Hnone' & Hh & ->).
    assert (filter (λ kv : path * node, ¬ (t :: h) `suffix_of` kv.1)
              (<[t :: h := Dir]> fs1') = fs1') as ->.
    { apply map_eq. intros k.
      destruct (decide ((t :: h) `suffix_of` k)) as [Hbelow | Hnot].
      - transitivity (@None node).
        + apply map_lookup_filter_None_2. right. intros x _ Hn. by apply Hn.
        + symmetry. destruct (Hframe k) as [-> | (_ & _ & Hup & _)].
          * rewrite (rmtree_lookup _ _ _ k Hrm). by rewrite decide_True.
          * by destruct (not_below_parent t h k).
      - assert (k ≠ t :: h) as Hk by (by intros ->).
        destruct (fs1' !! k) as [x |] eqn:Hx.
        + apply map_lookup_filter_Some_2; [| done].
          by rewrite lookup_insert_ne.
        + apply map_lookup_filter_None_2. left. by rewrite lookup_insert_ne. }
    by rewrite (makedirs_below_dir t h fs1' Hnone' Hh).
Qed.

(** Clearing a directory that is already empty changes nothing. *)
Lemma clear_vector_store_on_empty_directory {B : Backend}
    (self : VectorStoreManager B) (w : World (Ext B)) :
  persist_directory self ≠ [] →
  OS.empty_dir (fs w) (persist_directory self) →
  OS.kind (fs w) (tail (persist_directory self)) = Some Dir →
  clear_vector_store B (self, w) = (inr tt, (self, w)).
Proof.
  set (p := persist_directory self). intros Hne [Hdir Hbelow] Hparent.
  rewrite clear_vector_store_run. fold p.
  unfold OS.exists_, OS.rmtree. rewrite Hdir.
  destruct p as [| t h] eqn:Hp; [done |]. rewrite kind_cons in Hdir.
  assert (filter (λ kv : path * node, ¬ (t :: h) `suffix_of` kv.1) (fs w)
          = delete (t :: h) (fs w)) as ->.
  { apply map_eq. intros k.
    destruct (decide ((t :: h) `suffix_of` k)) as [Hsuf | Hnot].
    - transitivity (@None node).
      + apply map_lookup_filter_None_2. right. intros x _ Hn. by apply Hn.
      + symmetry. destruct (decide (k = t :: h)) as [-> | Hk].
        * apply lookup_delete_eq.
        * rewrite lookup_delete_ne by done. by apply Hbelow.
    - assert (k ≠ t :: h) as Hk by (by intros ->).
      rewrite lookup_delete_ne by done.
      destruct (fs w !! k) as [x |] eqn:Hx.
      + by apply map_lookup_filter_Some_2.
      + apply map_lookup_filter_None_2. by left. }
  assert (OS.kind (delete (t :: h) (fs w)) h = Some Dir) as Hh.
  { simpl in Hparent. destruct h as [| t' h']; [done |].
    rewrite kind_cons, lookup_delete_ne; [done |].
    intros Heq. apply (f_equal (@List.length string)) in Heq. simpl in Heq. lia. }
  rewrite (makedirs_below_dir t h _ (lookup_delete_eq _ _) Hh). simpl.
  rewrite insert_delete_eq, insert_id by done. by destruct w.
Qed.

(** C7: [clear_vector_store] is idempotent: a second call in a row leaves
    the state the first call left, and succeeds when the first did; on a
    path that does not exist, and on a directory that is already empty,
    it changes nothing and raises nothing. *)
Theorem clear_vector_store_idempotent (B : Backend)
    (self : VectorStoreManager B) (w : World (Ext B)) :
  let once := clear_vector_store B (self, w) in
  let twice := clear_vector_store B once.2 in
  twice.2 = once.2
  ∧ (once.1 = inr tt → twice.1 = inr tt)
  ∧ (OS.exists_ (fs w) (persist_directory self) = false
     → once = (inr tt, (self, w)))
  ∧ (persist_directory self ≠ []
     → OS.empty_dir (fs w) (persist_directory self)
     → OS.kind (fs w) (tail (persist_directory self)) = Some Dir
     → once = (inr tt, (self, w))).
Proof.
  intros once twice.
  assert (persist_directory self ≠ []
          → OS.empty_dir (fs w) (persist_directory self)
          → OS.kind (fs w) (tail (persist_directory self)) = Some Dir
          → once = (inr tt, (self, w))) as Hempty
    by apply clear_vector_store_on_empty_directory.
  cut (twice.2 = once.2
       ∧ (once.1 = inr tt → twice.1 = inr tt)
       ∧ (OS.exists_ (fs w) (persist_directory self) = false
          → once = (inr tt, (self, w)))); [tauto |].
  clear Hempty. subst twice once.
  rewrite (clear_vector_store_run self w).
  set (p := persist_directory self).
  destruct (OS.exists_ (fs w) p) eqn:Hex.
  - destruct (OS.rmtree (fs w) p) as [e | fs1] eqn:Hrm.
    + (* the path is a file: [rmtree] raises, both times *)
      simpl. rewrite (clear_vector_store_run self w). fold p.
      rewrite Hex, Hrm. by repeat split.
    + destruct (OS.makedirs p fs1) as [[e | []] fs2] eqn:Hmk; simpl.
      * (* the directory could not be made again: the path is absent *)
        assert (OS.exists_ fs2 p = false) as Hgone.
        { apply exists_false_lookup. destruct p as [| t h] eqn:Hp.
          - by simpl in Hmk.
          - rewrite kind_cons.
            apply (makedirs_absent t h fs1 _ fs2 Hmk).
            rewrite (rmtree_lookup _ _ _ (t :: h) Hrm). by rewrite decide_True. }
        rewrite clear_vector_store_run. fold p. simpl. rewrite Hgone.
        by repeat split.
      * rewrite (clear_after_clear self (fs w) fs1 fs2) by done.
        by repeat split.
  - simpl. rewrite (clear_vector_store_run self w). fold p. rewrite Hex.
    by repeat split.
Qed.

(** ** The [rag_chain] attribute across [initialize_system] (C8) *)

Section KeepsRagChain.

Context {B : Backend}.

Lemma keeps_ret {A} (a : A) : keeps_rag_chain B (ret a).
Proof. by intros self w. Qed.

Lemma keeps_raise {A} (e : exn) : keeps_rag_chain B (@raise _ A e).
Proof. by intros self w. Qed.

Lemma keeps_self_get : keeps_rag_chain B self_get.
Proof. by intros self w. Qed.

Lemma keeps_in_world {A} (c : M (World (Ext B)) A) :
  keeps_rag_chain B (in_world c).
Proof. intros self w. unfold in_world. by destruct (c w). Qed.

Lemma keeps_on_embeddings_manager {A}
    (c : M (EmbeddingsManager B * World (Ext B)) A) :
  keeps_rag_chain B (on_embeddings_manager B c).
Proof.
  intros self w. unfold on_embeddings_manager, zoom.
  by destruct (c (embeddings_manager self, w)) as [r [m w']].
Qed.

Lemma keeps_on_vector_store_manager {A}
    (c : M (VectorStoreManager B * World (Ext B)) A) :
  keeps_rag_chain B (on_vector_store_manager B c).
Proof.
  intros self w. unfold on_vector_store_manager, zoom.
  by destruct (c (vector_store_manager self, w)) as [r [m w']].
Qed.

Lemma keeps_bind {A A'} (c : M (RAGSystem B * World (Ext B)) A)
    (k : A → M (RAGSystem B * World (Ext B)) A') :
  keeps_rag_chain B c → (∀ a, keeps_rag_chain B (k a)) →
  keeps_rag_chain B (bind c k).
Proof.
  intros Hc Hk self w. unfold bind. specialize (Hc self w).
  destruct (c (self, w)) as [[e | a] [self1 w1]]; simpl in *; [done |].
  by rewrite Hk.
Qed.

Lemma keeps_try_except {A} (c : M (RAGSystem B * World (Ext B)) A)
    (h : exn → M (RAGSystem B * World (Ext B)) A) :
  keeps_rag_chain B c → (∀ e, keeps_rag_chain B (h e)) →
  keeps_rag_chain B (try_except c h).
Proof.
  intros Hc Hh self w. unfold try_except. specialize (Hc self w).
  destruct (c (self, w)) as [[e | a] [self1 w1]]; simpl in *; [| done].
  by rewrite Hh.
Qed.

Lemma keeps_reraise {A} (c : M (RAGSystem B * World (Ext B)) A) :
  keeps_rag_chain B c → keeps_rag_chain B (reraise c).
Proof. intros Hc. apply keeps_try_except; [done |]. apply keeps_raise. Qed.

Create HintDb keeps discriminated.
Hint Resolve keeps_ret keeps_raise keeps_self_get keeps_in_world
  keeps_on_embeddings_manager keeps_on_vector_store_manager
  keeps_reraise : keeps.

Ltac keeps :=
  repeat first
    [ progress eauto with keeps
    | apply keeps_bind; [| intros ?]
    | apply keeps_try_except; [| intros ?]
    | apply keeps_reraise
    | match goal with
      | |- keeps_rag_chain _ (match ?x with _ => _ end) => destruct x
      | |- keeps_rag_chain _ (if ?x then _ else _) => destruct x
      end ].




End KeepsRagChain.



(** Past step 5 it is different: when [build_chain] raises, the attribute
    already holds the new, unbuilt session. *)
Example failed_build_chain_replaces_session :
  let run := initialize_system Local.backend false None true
               (Local.ready_system, Local.llm_down_world) in
  match run.1 with
  | inl e => e = OtherError "ConnectionError"
  | inr _ => False
  end
  ∧ match rag_chain run.2.1 with
    | Some rc => chain rc = None
    | None => False
    end
  ∧ match rag_chain Local.ready_system with
    | Some rc => chain rc = Some (["chroma_db"], "%PDF alpha")
    | None => False
    end
  ∧ rag_chain run.2.1 ≠ rag_chain Local.ready_system.
Proof.
  intros run.
  assert (match rag_chain run.2.1 with
          | Some rc => chain rc = None
          | None => False
          end) as Hnew by (vm_compute; reflexivity).
  assert (match rag_chain Local.ready_system with
          | Some rc => chain rc = Some (["chroma_db"], "%PDF alpha")
          | None => False
          end) as Hold by (vm_compute; reflexivity).
  split; [vm_compute; reflexivity |]. split; [exact Hnew |].
  split; [exact Hold |].
  intros Heq. rewrite Heq in Hnew.
  destruct (rag_chain Local.ready_system) as [rc |]; [congruence | done].
Qed.

(** ** Documents and the persisted index in [initialize_system] (C1) *)

Lemma scan_pdf_files_world {B : Backend} (config : RAGConfig) (w : World (Ext B)) :
  (scan_pdf_files B config w).2 = w.
Proof.
  unfold scan_pdf_files, bind, fs_try, fs_read.
  by destruct (OS.listdir (fs w) (DATA_DIR config)).
Qed.

Section InitializeSteps.

Context {B : Backend}.
Context (download_new : bool) (pdf_filename : option string).
Context (self self1 self2 : RAGSystem B) (w w1 w2 : World (Ext B)).
Context (emb : Emb B).

(** Steps 1 and 2 went through. *)
Hypothesis Hembeddings :
  on_embeddings_manager B (initialize_embeddings B (config self)) (self, w)
  = (inr emb, (self1, w1)).
Hypothesis Hdownload :
  maybe_download B download_new pdf_filename (self1, w1) = (inr tt, (self2, w2)).

Lemma scan_in_world (pdf_files : list string) :
  (scan_pdf_files B (config self) w2).1 = inr pdf_files →
  in_world (scan_pdf_files B (config self)) (self2, w2)
  = (inr pdf_files, (self2, w2)).
Proof.
  unfold in_world. pose proof (scan_pdf_files_world (config self) w2) as Hw.
  destruct (scan_pdf_files B (config self) w2) as [r w2'].
  simpl in *. by intros; subst.
Qed.



End InitializeSteps.




(** ** Loading without a persisted index (C2) *)

Lemma load_vector_store_run {B : Backend} (embeddings_model : Emb B)
    (self : VectorStoreManager B) (w : World (Ext B)) :
  load_vector_store B embeddings_model (self, w)
  = match Chroma B (persist_directory self) embeddings_model (fs w) (ext w) with
    | (inr vs, fs', ext') =>
        (inr vs, (set_vector_store B vs self, mkWorld fs' ext' (sleeps w)))
    | (inl e, fs', ext') => (inl e, (self, mkWorld fs' ext' (sleeps w)))
    end.
Proof.
  unfold load_vector_store. rewrite reraise_run.
  unfold bind, self_get, in_world, call, self_set. simpl.
  by destruct (Chroma B _ _ _ _) as [[[e | vs] fs'] ext'].
Qed.

(** [load_vector_store] has no check of its own: it raises exactly when
    the [Chroma] constructor does. *)
Lemma load_vector_store_fails_iff_constructor_does {B : Backend}
    (embeddings_model : Emb B) (self : VectorStoreManager B) (w : World (Ext B))
    (e : exn) :
  (load_vector_store B embeddings_model (self, w)).1 = inl e
  ↔ (Chroma B (persist_directory self) embeddings_model (fs w) (ext w)).1.1 = inl e.
Proof.
  rewrite load_vector_store_run.
  by destruct (Chroma B _ _ _ _) as [[[e' | vs] fs'] ext'].
Qed.

(** C2 on the code: right after [clear_vector_store] the directory is
    there and lists nothing, so no index is persisted, yet
    [load_vector_store] returns the empty collection that the constructor
    opens instead of raising; [initialize_system] on a disk with one PDF
    and an empty index directory binds the session to that empty
    collection and persists nothing. *)
Theorem load_vector_store_opens_cleared_directory :
  let cleared := (clear_vector_store Local.backend
                    (Local.manager, Local.index_only_world)).2 in
  let run := initialize_system Local.backend false None false
               (Local.system, Local.one_pdf_world) in
  OS.isdir (fs cleared.2) (persist_directory Local.manager) = true
  ∧ OS.listdir (fs cleared.2) (persist_directory Local.manager) = inr []
  ∧ (load_vector_store Local.backend "all-MiniLM-L6-v2" cleared).1
    = inr (["chroma_db"], "")
  ∧ match run.1 with
    | inr (Some rc) => rc_vector_store rc = (["chroma_db"], "")
    | _ => False
    end
  ∧ OS.exists_ (fs run.2.2) (Local.index_file ["chroma_db"]) = false.
Proof.
  intros cleared run.
  split; [vm_compute; reflexivity |].
  split; [vm_compute; reflexivity |].
  split; [vm_compute; reflexivity |].
  split; vm_compute; reflexivity.
Qed.

(** * More properties *)

(** ** Reading a run backwards *)

Lemma bind_inr_inv {S A A' : Type} (c : M S A) (k : A → M S A') s b s'' :
  bind c k s = (inr b, s'') → ∃ a s', c s = (inr a, s') ∧ k a s' = (inr b, s'').
Proof.
  unfold bind. destruct (c s) as [[e | a] s'] eqn:Hc; [discriminate |].
  intros Hk. by exists a, s'.
Qed.

Lemma bind_inl_inv {S A A' : Type} (c : M S A) (k : A → M S A') s e s'' :
  bind c k s = (inl e, s'') →
  c s = (inl e, s'') ∨ ∃ a s', c s = (inr a, s') ∧ k a s' = (inl e, s'').
Proof.
  unfold bind. destruct (c s) as [[e' | a] s'] eqn:Hc.
  - intros [= -> ->]. by left.
  - intros Hk. right. by exists a, s'.
Qed.

Lemma returned_inr {S A : Type} (x : (exn + A) * S) :
  returned x ↔ ∃ a, x.1 = inr a.
Proof.
  unfold returned. destruct x as [[e | a] s]; simpl; split; try done.
  - by intros [a [=]].
  - intros _. by exists a.
Qed.

(** ** Listing a directory *)

Lemma child_of_Some (d k : path) (name : string) :
  OS.child_of d k = Some name ↔ k = name :: d.
Proof.
  unfold OS.child_of. destruct k as [| n d']; [done |].
  case_decide; naive_solver.
Qed.

(** The names [os.listdir] gives are the entries directly below. *)
Lemma elem_of_listdir (fs0 : FS) (d : path) (names : list string) (name : string) :
  OS.listdir fs0 d = inr names →
  name ∈ names ↔ is_Some (fs0 !! (name :: d)).
Proof.
  unfold OS.listdir. destruct (OS.kind fs0 d) as [[c |] |]; intros [= <-].
  rewrite list_elem_of_omap. split.
  - intros ([k x] & Hin & Hchild). simpl in Hchild.
    apply child_of_Some in Hchild as ->.
    apply elem_of_map_to_list in Hin. by exists x.
  - intros [x Hx]. exists (name :: d, x). split.
    + by apply elem_of_map_to_list.
    + change (OS.child_of d (name :: d) = Some name). by apply child_of_Some.
Qed.

Lemma listdir_inr_isdir (fs0 : FS) (d : path) :
  (∃ names, OS.listdir fs0 d = inr names) ↔ OS.isdir fs0 d = true.
Proof.
  unfold OS.listdir, OS.isdir.
  destruct (OS.kind fs0 d) as [[c |] |]; naive_solver.
Qed.

Lemma elem_of_filter_bool {A : Type} (f : A → bool) (l : list A) (x : A) :
  x ∈ List.filter f l ↔ x ∈ l ∧ f x = true.
Proof. rewrite !list_elem_of_In. apply filter_In. Qed.

(** X1: the scan of step 3 finds exactly the regular files directly in
    [DATA_DIR] whose name ends in [.pdf] in any letter case (a directory
    named [x.pdf] does not count); it raises exactly when [DATA_DIR] is
    not a directory, and it leaves the world as it is. *)
Theorem scan_pdf_files_finds_regular_pdf_files (B : Backend) (config : RAGConfig)
    (w : World (Ext B)) :
  (∀ names, (scan_pdf_files B config w).1 = inr names →
     ∀ f, f ∈ names
          ↔ (∃ content, fs w !! (f :: DATA_DIR config) = Some (File content))
            ∧ is_pdf_name f = true)
  ∧ (returned (scan_pdf_files B config w)
     ↔ OS.isdir (fs w) (DATA_DIR config) = true)
  ∧ (scan_pdf_files B config w).2 = w.
Proof.
  split; [| split; [| apply scan_pdf_files_world]].
  - unfold scan_pdf_files, bind, fs_try, fs_read.
    destruct (OS.listdir (fs w) (DATA_DIR config)) as [e | all] eqn:Hls;
      simpl; [discriminate |].
    intros names [= <-] f. rewrite elem_of_filter_bool.
    rewrite (elem_of_listdir _ _ _ f Hls), andb_true_iff.
    unfold OS.isfile, OS.join. rewrite kind_cons.
    destruct (fs w !! (f :: DATA_DIR config)) as [[c |] |]; split;
      try naive_solver.
  - rewrite <- listdir_inr_isdir. unfold returned, scan_pdf_files, bind, fs_try, fs_read.
    destruct (OS.listdir (fs w) (DATA_DIR config)) as [e | all]; simpl;
      naive_solver.
Qed.

(** ** The document routes of [app.py] *)

(** X2: [api_list_documents] never raises and never answers 400; it lists
    exactly the entries directly in [DATA_DIR] whose name ends in [.pdf]
    in any letter case, lists nothing when [DATA_DIR] does not exist, and
    leaves the world as it is. *)
Theorem api_list_documents_lists_pdf_entries (B : Backend) (config : RAGConfig)
    (w : World (Ext B)) :
  let run := api_list_documents B config w in
  run.2 = w
  ∧ (∃ r, run.1 = inr r ∧ status_code r ≠ 400)
  ∧ (∀ documents, run.1 = inr (Success documents) →
       OS.exists_ (fs w) (DATA_DIR config) = true →
       ∀ f, f ∈ documents
            ↔ is_Some (fs w !! (f :: DATA_DIR config)) ∧ is_pdf_name f = true)
  ∧ (OS.exists_ (fs w) (DATA_DIR config) = false → run.1 = inr (Success [])).
Proof.
  unfold api_list_documents, try_except, bind, fs_read, fs_try. simpl.
  destruct (OS.exists_ (fs w) (DATA_DIR config)) eqn:Hex; simpl.
  - destruct (OS.listdir (fs w) (DATA_DIR config)) as [e | all] eqn:Hls; simpl.
    + split; [done |]. split; [by eexists |]. split; [| done].
      by intros documents [=].
    + split; [done |]. split; [by eexists |]. split; [| done].
      intros documents [= <-] _ f. rewrite elem_of_filter_bool.
      by rewrite (elem_of_listdir _ _ _ f Hls).
  - split; [done |]. split; [by eexists |]. split; [| done].
    by intros documents _ [=].
Qed.

Lemma api_list_documents_run {B : Backend} (config : RAGConfig) (w : World (Ext B))
    (names : list string) :
  OS.listdir (fs w) (DATA_DIR config) = inr names →
  api_list_documents B config w = (inr (Success (List.filter is_pdf_name names)), w).
Proof.
  intros Hls. unfold api_list_documents, try_except, bind, fs_read, fs_try.
  cbv beta. rewrite (listdir_exists _ _ _ Hls). cbv beta iota. by rewrite Hls.
Qed.

Lemma cons_neq_self {A : Type} (x : A) (l : list A) : x :: l ≠ l.
Proof.
  intros Heq. apply (f_equal (@List.length A)) in Heq. simpl in Heq. lia.
Qed.

(** X3: [api_upload] never raises; a request without a file part, with
    an empty file name or with a name that does not end in [.pdf] gets
    400 and changes nothing; after a 200 for a file name without ["/"]
    the content is stored under [DATA_DIR] at the given name, nothing else
    on disk has changed, and [api_list_documents] lists that name. *)
Theorem api_upload_stores_pdf (B : Backend) (config : RAGConfig)
    (file : option (string * string)) (w : World (Ext B)) :
  let run := api_upload B config file w in
  (∃ r, run.1 = inr r)
  ∧ (∀ filename content,
       file = Some (filename, content) →
       filename = "" ∨ is_pdf_name filename = false →
       run = (inr (BadRequest "Invalid file type. Only PDF files are allowed"), w))
  ∧ (file = None → run = (inr (BadRequest "No file provided"), w))
  ∧ (∀ filename, has_separator filename = false →
       run.1 = inr (Success filename) →
       ∃ content,
         file = Some (filename, content)
         ∧ is_pdf_name filename = true
         ∧ fs run.2 !! (filename :: DATA_DIR config) = Some (File content)
         ∧ (∀ k, k ≠ filename :: DATA_DIR config → fs run.2 !! k = fs w !! k)
         ∧ ∃ documents,
             (api_list_documents B config run.2).1 = inr (Success documents)
             ∧ filename ∈ documents).
Proof.
  unfold api_upload. destruct file as [[filename content] |]; simpl.
  2: { split; [by eexists |]. split; [done |]. split; [done |].
       by intros filename _ [=]. }
  unfold try_except, bind, fs_update, OS.join.
  destruct (String.eqb filename "") eqn:Hempty; simpl.
  { split; [by eexists |]. split; [done |]. split; [done |].
    by intros f _ [=]. }
  destruct (is_pdf_name filename) eqn:Hpdf; simpl.
  2: { split; [by eexists |]. split; [done |]. split; [done |].
       by intros f _ [=]. }
  split.
  { destruct (OS.write_file (fs w) (filename :: DATA_DIR config) content);
      by eexists. }
  split.
  { intros f c [= <- <-] [-> | Hno]; [done | congruence]. }
  split; [done |].
  intros f _ Hok.
  destruct (OS.write_file (fs w) (filename :: DATA_DIR config) content)
    as [e | fs1] eqn:Hwrite; simpl in Hok; [done |].
  injection Hok as <-. exists content. simpl.
  assert (fs1 = <[filename :: DATA_DIR config := File content]> (fs w)
          ∧ OS.kind (fs w) (DATA_DIR config) = Some Dir) as [-> Hdir].
  { revert Hwrite. unfold OS.write_file. rewrite kind_cons. simpl.
    destruct (fs w !! (filename :: DATA_DIR config)) as [[c |] |];
      destruct (OS.kind (fs w) (DATA_DIR config)) as [[c' |] |];
      by intros [= <-]. }
  split; [done |]. split; [done |]. split; [by rewrite lookup_insert_eq |].
  split; [intros k Hk; by rewrite lookup_insert_ne |].
  assert (OS.kind (<[filename :: DATA_DIR config := File content]> (fs w))
            (DATA_DIR config) = Some Dir) as Hdir'.
  { destruct (DATA_DIR config) as [| t h] eqn:Hd; [done |].
    rewrite kind_cons, lookup_insert_ne; [done | apply cons_neq_self]. }
  destruct (proj2 (listdir_inr_isdir
                     (<[filename :: DATA_DIR config := File content]> (fs w))
                     (DATA_DIR config))) as [names Hls].
  { unfold OS.isdir. by rewrite Hdir'. }
  eexists. rewrite (api_list_documents_run config _ names) by exact Hls.
  split; [reflexivity |].
  rewrite elem_of_filter_bool, (elem_of_listdir _ _ _ filename Hls).
  split; [| done]. simpl. by rewrite lookup_insert_eq.
Qed.

(** ** Chunks and their metadata *)

Lemma elem_of_flat_map {A A' : Type} (f : A → list A') (l : list A) (y : A') :
  y ∈ flat_map f l ↔ ∃ x, x ∈ l ∧ y ∈ f x.
Proof.
  rewrite list_elem_of_In, in_flat_map.
  split; intros (x & Hx & Hy); exists x; by rewrite ?list_elem_of_In in *.
Qed.

Lemma load_and_split_pdf_run {B : Backend} (config : RAGConfig) (pdf_path : path)
    (w : World (Ext B)) :
  load_and_split_pdf B config pdf_path w
  = match PyPDFLoader_load B pdf_path (fs w) (ext w) with
    | (inr docs, fs', ext') =>
        (inr (split_documents B config (imap (set_metadata pdf_path) docs)),
         mkWorld fs' ext' (sleeps w))
    | (inl e, fs', ext') => (inl e, mkWorld fs' ext' (sleeps w))
    end.
Proof.
  unfold load_and_split_pdf. rewrite reraise_run. unfold bind, call.
  by destruct (PyPDFLoader_load B pdf_path (fs w) (ext w)) as [[[e | docs] fs'] ext'].
Qed.

(** What every chunk of [load_and_split_pdf] carries. *)
Lemma load_and_split_pdf_chunk {B : Backend} (config : RAGConfig)
    (pdf_path : path) (w : World (Ext B)) (chunks : list Document)
    (chunk : Document) :
  (load_and_split_pdf B config pdf_path w).1 = inr chunks →
  chunk ∈ chunks →
  ∃ docs i doc,
    (PyPDFLoader_load B pdf_path (fs w) (ext w)).1.1 = inr docs
    ∧ docs !! i = Some doc
    ∧ metadata chunk
      = <["page" := PyInt (Z.of_nat i + 1)]>
          (<["source" := PyStr (OS.basename pdf_path)]> (metadata doc))
    ∧ page_content chunk
      ∈ split_text B (CHUNK_SIZE config) (CHUNK_OVERLAP config) (page_content doc).
Proof.
  rewrite load_and_split_pdf_run.
  destruct (PyPDFLoader_load B pdf_path (fs w) (ext w)) as [[[e | docs] fs'] ext'];
    simpl; [done |].
  intros [= <-]. unfold split_documents. rewrite elem_of_flat_map.
  intros (doc' & Hdoc' & Hchunk).
  apply elem_of_lookup_imap in Hdoc' as (i & doc & -> & Hi).
  apply list_elem_of_fmap in Hchunk as (text & -> & Htext).
  by exists docs, i, doc.
Qed.

(** X4: every chunk [load_and_split_pdf] returns carries the file's base
    name as ["source"] and, as ["page"], the 1-indexed number of the page
    it was cut from; its text is one of the pieces the splitter made of
    that page. *)
Theorem load_and_split_pdf_metadata (B : Backend) (config : RAGConfig)
    (pdf_path : path) (w : World (Ext B)) (chunks : list Document) :
  (load_and_split_pdf B config pdf_path w).1 = inr chunks →
  ∃ docs,
    (PyPDFLoader_load B pdf_path (fs w) (ext w)).1.1 = inr docs
    ∧ ∀ chunk, chunk ∈ chunks →
        metadata chunk !! "source" = Some (PyStr (OS.basename pdf_path))
        ∧ ∃ i doc,
            docs !! i = Some doc
            ∧ (i < List.length docs)%nat
            ∧ metadata chunk !! "page" = Some (PyInt (Z.of_nat i + 1))
            ∧ page_content chunk
              ∈ split_text B (CHUNK_SIZE config) (CHUNK_OVERLAP config)
                  (page_content doc).
Proof.
  intros Hrun.
  assert (∃ docs, (PyPDFLoader_load B pdf_path (fs w) (ext w)).1.1 = inr docs)
    as [docs Hdocs].
  { revert Hrun. rewrite load_and_split_pdf_run.
    destruct (PyPDFLoader_load B pdf_path (fs w) (ext w))
      as [[[e | docs] fs'] ext']; simpl; [done | by eexists]. }
  exists docs. split; [done |]. intros chunk Hin.
  destruct (load_and_split_pdf_chunk config pdf_path w chunks chunk Hrun Hin)
    as (docs' & i & doc & Hdocs' & Hi & Hmeta & Htext).
  assert (docs' = docs) as -> by congruence.
  rewrite Hmeta. split.
  - rewrite lookup_insert_ne by done. by rewrite lookup_insert_eq.
  - exists i, doc. split; [done |]. split; [by eapply lookup_lt_Some |].
    split; [by rewrite lookup_insert_eq | done].
Qed.

Lemma load_and_split_pdf_metadata_witness :
  metadata LocalS3.alpha_chunk !! "source" = Some (PyStr "a.pdf").
Proof.
  assert ((load_and_split_pdf Local.backend Local.default_config
             ["a.pdf"; "data"] Local.one_pdf_world).1
          = inr [LocalS3.alpha_chunk]) as Hrun by (vm_compute; reflexivity).
  destruct (load_and_split_pdf_metadata Local.backend Local.default_config
              ["a.pdf"; "data"] Local.one_pdf_world _ Hrun) as (docs & _ & Hall).
  exact (proj1 (Hall LocalS3.alpha_chunk (list_elem_of_here _ _))).
Defined.

Lemma per_file_outcomes_chunk {B : Backend} (config : RAGConfig)
    (data_folder : path) (pdf_files : list string) (w : World (Ext B))
    (chunk : Document) :
  chunk ∈ chunks_of_successes
            (per_file_outcomes B config data_folder pdf_files w).1 →
  ∃ f w0 chunks,
    f ∈ pdf_files
    ∧ (load_and_split_pdf B config (OS.join data_folder f) w0).1 = inr chunks
    ∧ chunk ∈ chunks.
Proof.
  revert w. induction pdf_files as [| f rest IH]; intros w; simpl.
  - by intros ?%elem_of_nil.
  - destruct (load_and_split_pdf B config (OS.join data_folder f) w)
      as [r w1] eqn:Hrun.
    specialize (IH w1).
    destruct (per_file_outcomes B config data_folder rest w1) as [rs w2].
    unfold chunks_of_successes. simpl. rewrite elem_of_app.
    intros [Hhere | Hrest].
    + destruct r as [e | chunks]; [by apply elem_of_nil in Hhere |].
      exists f, w, chunks. rewrite Hrun. split; [left | done].
    + destruct (IH Hrest) as (f' & w0 & chunks & Hf' & Hload & Hin).
      exists f', w0, chunks. split; [by right | done].
Qed.

(** X5: every chunk [load_and_split_all_pdfs] returns names, as its
    ["source"], an entry of the folder whose name ends in [.pdf] in any
    letter case: no chunk comes from anywhere else. *)
Theorem all_chunks_come_from_listed_pdfs (B : Backend) (config : RAGConfig)
    (data_folder : option path) (w : World (Ext B)) (chunks : list Document) :
  let folder := match data_folder with None => DATA_DIR config | Some d => d end in
  (load_and_split_all_pdfs B config data_folder w).1 = inr chunks →
  ∀ chunk, chunk ∈ chunks →
    ∃ f, is_pdf_name f = true
         ∧ is_Some (fs w !! (f :: folder))
         ∧ metadata chunk !! "source" = Some (PyStr f).
Proof.
  intros folder. unfold load_and_split_all_pdfs. fold folder.
  unfold bind, fs_read, fs_try. cbv beta.
  destruct (OS.exists_ (fs w) folder); cbn [negb]; cbv beta iota.
  2: { intros [= <-] chunk Hin. by apply elem_of_nil in Hin. }
  destruct (OS.listdir (fs w) folder) as [e | names] eqn:Hls; [done |].
  destruct (List.filter is_pdf_name names) as [| f0 files] eqn:Hpdf.
  { intros [= <-] chunk Hin. by apply elem_of_nil in Hin. }
  rewrite split_each_run. cbn [fst app]. intros [= <-] chunk Hin.
  destruct (per_file_outcomes_chunk config folder (f0 :: files) w chunk Hin)
    as (f & w0 & cs & Hf & Hload & Hchunk).
  rewrite <- Hpdf in Hf. apply elem_of_filter_bool in Hf as [Hname Hispdf].
  exists f. split; [done |]. split.
  - by apply (elem_of_listdir _ _ _ f Hls).
  - destruct (load_and_split_pdf_chunk _ _ _ _ _ Hload Hchunk)
      as (docs & i & doc & _ & _ & -> & _).
    rewrite lookup_insert_ne by done. by rewrite lookup_insert_eq.
Qed.

Lemma all_chunks_come_from_listed_pdfs_witness :
  ∃ f, is_pdf_name f = true
       ∧ is_Some (fs Local.mixed_world !! (f :: ["data"]))
       ∧ metadata LocalS3.alpha_chunk !! "source" = Some (PyStr f).
Proof.
  assert ((load_and_split_all_pdfs Local.backend Local.default_config None
             Local.mixed_world).1
          = inr [mkDocument "%PDF gamma"
                   (<["page" := PyInt 1]>
                      (<["source" := PyStr "c.pdf"]> {["page" := PyInt 0]}));
                 LocalS3.alpha_chunk]) as Hrun by (vm_compute; reflexivity).
  apply (all_chunks_come_from_listed_pdfs Local.backend Local.default_config
           None Local.mixed_world _ Hrun LocalS3.alpha_chunk).
  apply list_elem_of_further, list_elem_of_here.
Defined.

(** ** The rest of the S3 loader *)

Lemma download_pdf_attempt_run {B : Backend} (config : RAGConfig)
    (filename : string) (w : World (Ext B)) :
  download_pdf_attempt B config filename w
  = match head_object B (S3_BUCKET_NAME config) filename (fs w) (ext w) with
    | (inl e, fs1, ext1) => (inl (head_error e), mkWorld fs1 ext1 (sleeps w))
    | (inr _, fs1, ext1) =>
        match download_file B (S3_BUCKET_NAME config) filename
                (OS.join (DATA_DIR config) filename) fs1 ext1 with
        | (inl e, fs2, ext2) =>
            (inl (download_error e), mkWorld fs2 ext2 (sleeps w))
        | (inr _, fs2, ext2) =>
            (inr (OS.join (DATA_DIR config) filename), mkWorld fs2 ext2 (sleeps w))
        end
    end.
Proof.
  unfold download_pdf_attempt, try_except, bind, call, raise, ret. cbv zeta.
  destruct (head_object B (S3_BUCKET_NAME config) filename (fs w) (ext w))
    as [[[e | []] fs1] ext1]; simpl.
  - destruct e as [| | | | | code | |]; simpl; try reflexivity.
    destruct (String.eqb code "404"); simpl; [reflexivity |].
    destruct (String.eqb code "NoSuchKey"); simpl; [reflexivity |].
    destruct (String.eqb code "NoSuchBucket"); simpl; [reflexivity |].
    by destruct (String.eqb code "403").
  - destruct (download_file B (S3_BUCKET_NAME config) filename
                (OS.join (DATA_DIR config) filename) fs1 ext1)
      as [[[e | []] fs2] ext2]; simpl; [| reflexivity].
    destruct e as [| | | | | code | |]; simpl; try reflexivity.
    destruct (String.eqb code "NoSuchKey"); simpl; [reflexivity |].
    destruct (String.eqb code "NoSuchBucket"); simpl; [reflexivity |].
    by destruct (String.eqb code "403").
Qed.



Lemma download_pdf_attempt_returns_local_path {B : Backend} (config : RAGConfig)
    (filename : string) (w : World (Ext B)) (p : path) :
  (download_pdf_attempt B config filename w).1 = inr p →
  p = OS.join (DATA_DIR config) filename.
Proof.
  rewrite download_pdf_attempt_run.
  destruct (head_object B _ _ _ _) as [[[e | []] fs1] ext1]; simpl; [done |].
  destruct (download_file B _ _ _ _ _) as [[[e | []] fs2] ext2]; simpl; [done |].
  by intros [= <-].
Qed.


(** X7: [list_pdfs] returns exactly the keys of the listing that end in
    [.pdf] in any letter case, and nothing when the response has no
    ['Contents']; a [ClientError] with code 403 from the listing is
    raised as [PermissionError] and never leaves as [ClientError]. *)
Theorem list_pdfs_outcomes (B : Backend)
    (list_objects_v2 : string → Oracle (Ext B) (option (list string)))
    (config : RAGConfig) (w : World (Ext B)) :
  let run := list_pdfs B list_objects_v2 config w in
  let listing := (list_objects_v2 (S3_BUCKET_NAME config) (fs w) (ext w)).1.1 in
  (∀ names, run.1 = inr names →
     ∀ f, f ∈ names
          ↔ (∃ keys, listing = inr (Some keys) ∧ f ∈ keys) ∧ is_pdf_name f = true)
  ∧ (listing = inr None → run.1 = inr [])
  ∧ (listing = inl (ClientError "403") → run.1 = inl PermissionError)
  ∧ run.1 ≠ inl (ClientError "403").
Proof.
  unfold list_pdfs, try_except, bind, call, map_403, raise, ret. cbv zeta.
  destruct (list_objects_v2 (S3_BUCKET_NAME config) (fs w) (ext w))
    as [[[e | [keys |]] fs1] ext1]; simpl.
  - split; [| split; [done |]].
    + destruct e as [| | | | | code | |]; simpl; try done.
      by destruct (String.eqb code "403").
    + split.
      * by intros [= ->].
      * destruct e as [| | | | | code | |]; simpl; try done.
        destruct (String.eqb code "403") eqn:Hcode; simpl; [done |].
        intros [= ->]. done.
  - split; [| done].
    intros names [= <-] f. rewrite elem_of_filter_bool. split.
    + intros [Hin Hpdf]. split; [by exists keys | done].
    + intros [(keys' & [= <-] & Hin) Hpdf]. done.
  - split; [| done].
    intros names [= <-] f. split; [by intros ?%elem_of_nil |].
    by intros [(keys' & [=] & _) _].
Qed.

Lemma retrying_returns {B : Backend} {A : Type} (c : M (World (Ext B)) A)
    (P : A → Prop) (wait : Z → Z) :
  (∀ w a, (c w).1 = inr a → P a) →
  ∀ (attempts_left : nat) (attempt_number : Z) (w : World (Ext B)) (a : A),
    (retrying B attempts_left wait attempt_number c w).1 = inr a → P a.
Proof.
  intros Hc attempts_left.
  induction attempts_left as [| n IH]; intros attempt_number w a; simpl;
    unfold try_except; pose proof (Hc w) as Hw;
    destruct (c w) as [[e | a'] w1]; simpl in *.
  - done.
  - intros [= <-]. by apply Hw.
  - unfold bind, sleep, modify. simpl. apply IH.
  - intros [= <-]. by apply Hw.
Qed.

Lemma download_pdf_returns_local_path {B : Backend} (config : RAGConfig)
    (filename : string) (w : World (Ext B)) (p : path) :
  (download_pdf B config filename w).1 = inr p →
  p = OS.join (DATA_DIR config) filename.
Proof.
  unfold download_pdf, retry_stop_after_attempt.
  apply (retrying_returns (download_pdf_attempt B config filename)
           (λ p, p = OS.join (DATA_DIR config) filename)).
  intros w0 a. apply download_pdf_attempt_returns_local_path.
Qed.

Lemma download_each_run {B : Backend} (config : RAGConfig)
    (pdf_files : list string) :
  ∀ (downloaded_files : list path) (w : World (Ext B)),
  ∃ paths,
    (download_each B config pdf_files downloaded_files w).1
    = inr (downloaded_files ++ paths)%list
    ∧ paths `sublist_of` map (OS.join (DATA_DIR config)) pdf_files.
Proof.
  induction pdf_files as [| f rest IH]; intros downloaded_files w; simpl.
  - exists []. by rewrite app_nil_r.
  - unfold bind at 1, try_except, bind at 1.
    destruct (download_pdf B config f w) as [[e | p] w1] eqn:Hrun; simpl.
    + destruct (IH downloaded_files w1) as (paths & Hpaths & Hsub).
      exists paths. split; [done |]. by apply sublist_cons.
    + pose proof (download_pdf_returns_local_path config f w p) as Hp.
      rewrite Hrun in Hp. specialize (Hp eq_refl). subst p.
      destruct (IH (downloaded_files ++ [OS.join (DATA_DIR config) f])%list w1)
        as (paths & Hpaths & Hsub).
      exists (OS.join (DATA_DIR config) f :: paths).
      split; [by rewrite Hpaths, <- app_assoc |]. by apply sublist_skip.
Qed.

(** X8: once the listing is there, [download_all_pdfs] never raises: a
    file whose download fails is passed over and the result is, in listing
    order, the local paths under [DATA_DIR] of the files that were
    fetched; when the listing itself raises, that exception is raised and
    nothing is downloaded. *)
Theorem download_all_pdfs_is_best_effort (B : Backend)
    (list_objects_v2 : string → Oracle (Ext B) (option (list string)))
    (config : RAGConfig) (w : World (Ext B)) :
  let listing := list_pdfs B list_objects_v2 config w in
  let run := download_all_pdfs B list_objects_v2 config w in
  (∀ names, listing.1 = inr names →
     ∃ paths, run.1 = inr paths
              ∧ paths `sublist_of` map (OS.join (DATA_DIR config)) names
              ∧ (List.length paths ≤ List.length names)%nat)
  ∧ (∀ e, listing.1 = inl e → run = (inl e, listing.2)).
Proof.
  intros listing run. subst run. unfold download_all_pdfs, bind.
  fold listing. destruct listing as [[e | names] w1]; simpl; split.
  - done.
  - by intros e' [= <-].
  - intros names' [= <-].
    destruct (download_each_run config names [] w1) as (paths & Hrun & Hsub).
    exists paths. split; [done |]. split; [done |].
    apply sublist_length in Hsub. by rewrite length_map in Hsub.
  - done.
Qed.

Example download_all_pdfs_from_stocked_bucket :
  let run := download_all_pdfs Local.backend LocalS3.list_objects
               Local.default_config LocalS3.stocked_world in
  run.1 = inr [["a.pdf"; "data"]; ["b.PDF"; "data"]]
  ∧ fs run.2 !! ["b.PDF"; "data"] = Some (File "%PDF beta")
  ∧ fs run.2 !! ["notes.txt"; "data"] = None.
Proof. split; [| split]; vm_compute; reflexivity. Qed.

(** ** Directories made at start-up *)

Lemma makedirs_raises_OSError (p : path) :
  ∀ (fs0 : FS) (e : exn) (fs' : FS),
    OS.makedirs p fs0 = (inl e, fs') → is_OSError e = true.
Proof.
  assert (∀ q fs0 e fs', OS.mkdir_exist_ok q fs0 = (inl e, fs')
                          → is_OSError e = true) as Hmk.
  { intros q fs0 e fs'. unfold OS.mkdir_exist_ok, OS.mkdir.
    destruct (OS.kind fs0 q) as [x |]; simpl.
    - destruct (OS.isdir fs0 q); by intros [= <- <-].
    - destruct (OS.kind fs0 (tail q)) as [[c |] |]; simpl; try done;
        destruct (OS.isdir fs0 q); by intros [= <- <-]. }
  induction p as [| t h IH]; intros fs0 e fs'; simpl; [apply Hmk |].
  destruct (negb (bool_decide (h = [])) && negb (OS.exists_ fs0 h)).
  - destruct (OS.makedirs h fs0) as [[e0 | []] fs1] eqn:Hrec; simpl.
    + pose proof (IH fs0 e0 fs1 Hrec) as He0.
      destruct e0; simpl in *; try done; try by intros [= <- <-].
      apply Hmk.
    + apply Hmk.
  - apply Hmk.
Qed.

Lemma only_adds_dirs_kind (p q : path) (fs0 fs' : FS) :
  OS.only_adds_dirs p fs0 fs' → OS.kind fs0 q = Some Dir →
  OS.kind fs' q = Some Dir.
Proof.
  intros Hframe. destruct q as [| t h]; [done |]. rewrite !kind_cons.
  destruct (Hframe (t :: h)) as [-> | (Hn & _)]; [done | congruence].
Qed.

Lemma only_adds_dirs_lookup (p k : path) (fs0 fs' : FS) (x : node) :
  OS.only_adds_dirs p fs0 fs' → fs0 !! k = Some x → fs' !! k = Some x.
Proof.
  intros Hframe Hk. destruct (Hframe k) as [-> | (Hn & _)]; [done | congruence].
Qed.

(** X9: when [RAGConfig.__post_init__] returns, [DATA_DIR] and
    [VECTOR_STORE_DIR] are directories and every entry that was on disk
    is still there with its content. *)
Theorem post_init_makes_both_directories (B : Backend) (config : RAGConfig)
    (w : World (Ext B)) :
  let run := post_init B config w in
  returned run →
  OS.isdir (fs run.2) (DATA_DIR config) = true
  ∧ OS.isdir (fs run.2) (VECTOR_STORE_DIR config) = true
  ∧ ∀ k x, fs w !! k = Some x → fs run.2 !! k = Some x.
Proof.
  unfold post_init, returned, bind, fs_run. simpl.
  destruct (OS.makedirs (DATA_DIR config) (fs w)) as [[e | []] fs1] eqn:H1;
    simpl; [done |].
  destruct (OS.makedirs (VECTOR_STORE_DIR config) fs1) as [[e | []] fs2] eqn:H2;
    simpl; [done |].
  intros _.
  pose proof (makedirs_only_adds_dirs _ _ _ _ H1) as Hf1.
  pose proof (makedirs_only_adds_dirs _ _ _ _ H2) as Hf2.
  simpl. unfold OS.isdir. split; [| split].
  - assert (OS.kind fs2 (DATA_DIR config) = Some Dir) as Hk
      by (eapply only_adds_dirs_kind; [exact Hf2 | by eapply makedirs_ok_isdir]).
    by rewrite Hk.
  - assert (OS.kind fs2 (VECTOR_STORE_DIR config) = Some Dir) as Hk
      by (by eapply makedirs_ok_isdir).
    by rewrite Hk.
  - intros k x Hk. eapply only_adds_dirs_lookup; [exact Hf2 |].
    by eapply only_adds_dirs_lookup.
Qed.

Lemma post_init_makes_both_directories_witness :
  OS.isdir (fs (post_init Local.backend Local.default_config LocalS3.bare_world).2)
    ["data"] = true
  ∧ OS.isdir (fs (post_init Local.backend Local.default_config LocalS3.bare_world).2)
      ["chroma_db"] = true
  ∧ ∀ k x, fs LocalS3.bare_world !! k = Some x →
           fs (post_init Local.backend Local.default_config LocalS3.bare_world).2
             !! k = Some x.
Proof.
  apply (post_init_makes_both_directories Local.backend Local.default_config
           LocalS3.bare_world).
  vm_compute. exact I.
Defined.

Lemma new_S3Downloader_run {B : Backend} (boto3_client : Oracle (Ext B) unit)
    (head_bucket : string → Oracle (Ext B) unit)
    (config : RAGConfig) (w : World (Ext B)) :
  new_S3Downloader B boto3_client head_bucket config w
  = match (call boto3_client ;;
           call (head_bucket (S3_BUCKET_NAME config)))%py w with
    | (inr _, w1) => fs_run (OS.makedirs (DATA_DIR config)) w1
    | (inl e, w1) =>
        if is_credentials_error e
        then match (call boto3_client ;;
                    reraise (call (head_bucket (S3_BUCKET_NAME config))))%py w1 with
             | (inr _, w2) => fs_run (OS.makedirs (DATA_DIR config)) w2
             | (inl e', w2) => (inl e', w2)
             end
        else match @map_403 B unit e w1 with
             | (inr _, w2) => fs_run (OS.makedirs (DATA_DIR config)) w2
             | (inl e', w2) => (inl e', w2)
             end
    end.
Proof.
  unfold new_S3Downloader. unfold bind at 1, try_except.
  destruct ((call boto3_client;;
             call (head_bucket (S3_BUCKET_NAME config)))%py w) as [[e | []] w1];
    [| reflexivity].
  destruct (is_credentials_error e).
  - by destruct ((call boto3_client;;
                  reraise (call (head_bucket (S3_BUCKET_NAME config))))%py w1)
      as [[e' | []] w2].
  - by destruct (@map_403 B unit e w1) as [[e' | []] w2].
Qed.

(** X10: when [S3Downloader.__init__] returns, [DATA_DIR] is a directory;
    a 403 from the first [head_bucket] is raised as [PermissionError]
    before any directory is made; and a [ClientError] with code 403 can
    only leave the constructor after a credentials error sent it through
    the second try, whose exceptions are raised as they come. *)
Theorem new_S3Downloader_outcomes (B : Backend)
    (boto3_client : Oracle (Ext B) unit)
    (head_bucket : string → Oracle (Ext B) unit)
    (config : RAGConfig) (w : World (Ext B)) :
  let first := (call boto3_client ;;
                call (head_bucket (S3_BUCKET_NAME config)))%py w in
  let run := new_S3Downloader B boto3_client head_bucket config w in
  (returned run → OS.isdir (fs run.2) (DATA_DIR config) = true)
  ∧ (first.1 = inl (ClientError "403") → run = (inl PermissionError, first.2))
  ∧ (run.1 = inl (ClientError "403") →
     ∃ e, first.1 = inl e ∧ is_credentials_error e = true).
Proof.
  assert (∀ (e : exn) (w0 : World (Ext B)),
            ∃ e', @map_403 B unit e w0 = (inl e', w0)
                  ∧ e' ≠ ClientError "403"
                  ∧ (e = ClientError "403" → e' = PermissionError)) as Hmap.
  { intros e w0. unfold map_403, raise.
    destruct e as [| | | | | code | |]; try by eexists.
    destruct (String.eqb code "403") eqn:Hcode.
    - apply String.eqb_eq in Hcode as ->. by eexists.
    - eexists. split; [done |]. apply String.eqb_neq in Hcode.
      split; congruence. }
  assert (∀ (w0 : World (Ext B)),
            (returned (fs_run (OS.makedirs (DATA_DIR config)) w0)
             → OS.isdir (fs (fs_run (OS.makedirs (DATA_DIR config)) w0).2)
                 (DATA_DIR config) = true)
            ∧ (fs_run (OS.makedirs (DATA_DIR config)) w0).1
              ≠ inl (ClientError "403")) as Hmade.
  { intros w0. unfold fs_run, returned. simpl.
    destruct (OS.makedirs (DATA_DIR config) (fs w0)) as [[e | []] fs2] eqn:Hmk;
      simpl.
    - split; [done |]. intros [= ->]. by apply makedirs_raises_OSError in Hmk.
    - split; [| done]. intros _. unfold OS.isdir.
      by rewrite (makedirs_ok_isdir _ _ _ Hmk). }
  intros first run. subst run first. rewrite new_S3Downloader_run.
  destruct ((call boto3_client;;
             call (head_bucket (S3_BUCKET_NAME config)))%py w) as [[e | []] w1];
    cbn [fst snd].
  - destruct (is_credentials_error e) eqn:Hcred.
    + destruct ((call boto3_client;;
                 reraise (call (head_bucket (S3_BUCKET_NAME config))))%py w1)
        as [[e' | []] w2].
      * split; [done |]. split; [by intros [= ->] |]. intros _. by exists e.
      * split; [exact (proj1 (Hmade w2)) |]. split; [by intros [= ->] |].
        intros _. by exists e.
    + destruct (Hmap e w1) as (e' & -> & Hne & H403).
      split; [done |]. split.
      * intros [= ->]. by rewrite (H403 eq_refl).
      * by intros [= ->].
  - split; [exact (proj1 (Hmade w1)) |]. split; [done |].
    intros H403. by destruct (proj2 (Hmade w1)).
Qed.

(** ** Sessions and queries *)

(** X11: [RAGChain.query] keeps no state between calls: on a session
    whose chain is built it leaves the session exactly as it was, whatever
    the question and whether it returns or raises; it never changes the
    session's vector store or configuration; a rejected question leaves
    the world untouched too; and when it returns, the chain is built. *)
Theorem query_keeps_session (B : Backend) (question : pyval) (rc : RAGChain B)
    (w : World (Ext B)) :
  let run := query B question (rc, w) in
  (is_Some (chain rc) → run.2.1 = rc)
  ∧ rc_vector_store run.2.1 = rc_vector_store rc
  ∧ rc_config run.2.1 = rc_config rc
  ∧ (query_rejects question = true → run.2 = (rc, w))
  ∧ (returned run → is_Some (chain run.2.1)).
Proof.
  intros run. subst run.
  destruct (query_rejects question) eqn:Hq.
  { rewrite (query_rejected question (rc, w) Hq). unfold returned. simpl.
    by repeat split. }
  destruct question as [| | | s |]; try discriminate.
  assert (∀ c rc0 w0, chain rc0 = Some c →
            let run := query B (PyStr s) (rc0, w0) in
            run.2.1 = rc0 ∧ (returned run → is_Some (chain run.2.1))) as Hbuilt.
  { intros c rc0 w0 Hc. cbv zeta.
    rewrite (query_on_built_chain s rc0 w0 c Hq Hc).
    unfold in_world, call.
    destruct (chain_invoke B c s (fs w0) (ext w0)) as [[r fs'] ext']. simpl.
    split; [done |]. intros _. by rewrite Hc. }
  destruct (chain rc) as [c |] eqn:Hc.
  - destruct (Hbuilt c rc w Hc) as [Hsame Hret]. rewrite Hsame.
    split; [done |]. split; [done |]. split; [done |]. split; [done |].
    by rewrite Hsame in Hret.
  - rewrite (query_unbuilt_is_build_then_query (PyStr s) rc w Hq Hc).
    unfold bind. rewrite build_chain_run.
    destruct (make_chain B _ _ _ _ _) as [[[e | c] fs'] ext']; cbv beta iota.
    + unfold returned. simpl. split; [by intros [? ?] |]. by repeat split.
    + destruct (Hbuilt c (set_chain B c rc) (mkWorld fs' ext' (sleeps w)) eq_refl)
        as [Hsame Hret].
      rewrite Hsame. split; [by intros [? ?] |]. split; [done |].
      split; [done |]. split; [done |]. by rewrite Hsame in Hret.
Qed.

Lemma on_rag_chain_query_run {B : Backend} (question : pyval) (self : RAGSystem B)
    (rc : RAGChain B) (w : World (Ext B)) :
  rag_chain self = Some rc →
  ∃ r rc' w',
    on_rag_chain B (query B question) (self, w)
    = (r, (set_rag_chain B (Some rc') self, w'))
    ∧ (query_rejects question = true → r = inl ValueError).
Proof.
  intros Hrc. unfold on_rag_chain. rewrite Hrc.
  pose proof (query_rejected (B := B) question (rc, w)) as Hrej.
  destruct (query B question (rc, w)) as [r [rc' w']].
  exists r, rc', w'. split; [done |]. intros Hq. by injection (Hrej Hq).
Qed.

Lemma run_each_query_run {B : Backend} (questions : list pyval) :
  ∀ (results : list query_result) (self : RAGSystem B) (w : World (Ext B)),
  is_Some (rag_chain self) →
  ∃ more st',
    run_each_query B questions results (self, w) = (inr (results ++ more)%list, st')
    ∧ Forall2 (λ question r,
                 result_question r = question
                 ∧ (query_rejects question = true
                    → r = Errored question ValueError))
        questions more
    ∧ is_Some (rag_chain st'.1)
    ∧ config st'.1 = config self.
Proof.
  induction questions as [| question rest IH]; intros results self w [rc Hrc];
    simpl.
  - exists [], (self, w). rewrite app_nil_r. by repeat split; [constructor | eexists].
  - destruct (on_rag_chain_query_run question self rc w Hrc)
      as (r & rc' & w' & Hrun & Hrej).
    unfold bind at 1, try_except, bind at 1. rewrite Hrun.
    destruct r as [e | answer]; simpl.
    + destruct (IH (results ++ [Errored question e])%list
                  (set_rag_chain B (Some rc') self) w') as (more & st' & Hrest & Hall & Hsome & Hcfg);
        [by eexists |].
      exists (Errored question e :: more), st'.
      rewrite Hrest, <- app_assoc. split; [done |]. split; [| done].
      constructor; [| done]. split; [done |].
      intros Hq. by injection (Hrej Hq) as ->.
    + destruct (IH (results ++ [Answered question answer])%list
                  (set_rag_chain B (Some rc') self) w') as (more & st' & Hrest & Hall & Hsome & Hcfg);
        [by eexists |].
      exists (Answered question answer :: more), st'.
      rewrite Hrest, <- app_assoc. split; [done |]. split; [| done].
      constructor; [| done]. split; [done |].
      intros Hq. by specialize (Hrej Hq).
Qed.

Lemma run_queries_with_session {B : Backend} (questions : list pyval)
    (self : RAGSystem B) (w : World (Ext B)) :
  is_Some (rag_chain self) →
  run_queries B questions (self, w)
  = match run_each_query B questions [] (self, w) with
    | (inr results, st') => (inr (Some results), st')
    | (inl e, st') => (inl e, st')
    end.
Proof.
  intros [rc Hrc]. unfold run_queries, bind, self_get. simpl. by rewrite Hrc.
Qed.

(** X12: with a session bound, [run_queries] never raises: it returns one
    entry per question, in order, each carrying its question; a question
    that fails the guard gets an error entry with [ValueError] and the
    run goes on; the session stays bound and the configuration is not
    touched. *)
Theorem run_queries_answers_every_question (B : Backend) (questions : list pyval)
    (self : RAGSystem B) (w : World (Ext B)) :
  is_Some (rag_chain self) →
  let run := run_queries B questions (self, w) in
  ∃ results,
    run.1 = inr (Some results)
    ∧ map result_question results = questions
    ∧ List.length results = List.length questions
    ∧ (∀ i question, questions !! i = Some question →
         query_rejects question = true →
         results !! i = Some (Errored question ValueError))
    ∧ is_Some (rag_chain run.2.1)
    ∧ config run.2.1 = config self.
Proof.
  intros Hsession run. subst run.
  rewrite (run_queries_with_session questions self w Hsession).
  destruct (run_each_query_run questions [] self w Hsession)
    as (results & st' & Hrun & Hall & Hsome & Hcfg).
  rewrite Hrun. simpl. exists results.
  split; [done |]. split; [| split; [| split; [| done]]].
  - clear Hrun. induction Hall as [| q r qs rs [Hq _] _ IH]; [done |].
    simpl. by rewrite Hq, IH.
  - symmetry. by eapply Forall2_length.
  - intros i question Hi Hq.
    destruct (Forall2_lookup_l _ _ _ _ _ Hall Hi) as (r & Hr & _ & Hrej).
    by rewrite Hr, (Hrej Hq).
Qed.

Lemma run_queries_answers_every_question_witness :
  ∃ results,
    (run_queries Local.backend [PyStr "what is alpha?"; PyStr "hi"; PyInt 3]
       (Local.ready_system, Local.one_pdf_world)).1 = inr (Some results)
    ∧ map result_question results = [PyStr "what is alpha?"; PyStr "hi"; PyInt 3]
    ∧ List.length results
      = List.length [PyStr "what is alpha?"; PyStr "hi"; PyInt 3]
    ∧ (∀ i question,
         [PyStr "what is alpha?"; PyStr "hi"; PyInt 3] !! i = Some question →
         query_rejects question = true →
         results !! i = Some (Errored question ValueError))
    ∧ is_Some (rag_chain
                 (run_queries Local.backend
                    [PyStr "what is alpha?"; PyStr "hi"; PyInt 3]
                    (Local.ready_system, Local.one_pdf_world)).2.1)
    ∧ config (run_queries Local.backend
                [PyStr "what is alpha?"; PyStr "hi"; PyInt 3]
                (Local.ready_system, Local.one_pdf_world)).2.1
      = config Local.ready_system.
Proof.
  apply (run_queries_answers_every_question Local.backend
           [PyStr "what is alpha?"; PyStr "hi"; PyInt 3]
           Local.ready_system Local.one_pdf_world).
  by eexists.
Defined.

(** ** What [initialize_system] leaves alone *)

Section Keeps.

Context {B : Backend} {X : Type} (proj : RAGSystem B → X).
Hypothesis proj_embeddings_manager :
  ∀ m self, proj (set_embeddings_manager B m self) = proj self.
Hypothesis proj_vector_store_manager :
  ∀ m self, proj (set_vector_store_manager B m self) = proj self.
Hypothesis proj_rag_chain :
  ∀ rc self, proj (set_rag_chain B rc self) = proj self.

Lemma kept_ret {A} (a : A) : keeps proj (ret a).
Proof. by intros self w. Qed.

Lemma kept_raise {A} (e : exn) : keeps proj (@raise _ A e).
Proof. by intros self w. Qed.

Lemma kept_self_get : keeps proj self_get.
Proof. by intros self w. Qed.

Lemma kept_in_world {A} (c : M (World (Ext B)) A) : keeps proj (in_world c).
Proof. intros self w. unfold in_world. by destruct (c w). Qed.

Lemma kept_bind {A A'} (c : M (RAGSystem B * World (Ext B)) A)
    (k : A → M (RAGSystem B * World (Ext B)) A') :
  keeps proj c → (∀ a, keeps proj (k a)) → keeps proj (bind c k).
Proof.
  intros Hc Hk self w. unfold bind. specialize (Hc self w).
  destruct (c (self, w)) as [[e | a] [self1 w1]]; simpl in *; [done |].
  by rewrite Hk.
Qed.

Lemma kept_try_except {A} (c : M (RAGSystem B * World (Ext B)) A)
    (h : exn → M (RAGSystem B * World (Ext B)) A) :
  keeps proj c → (∀ e, keeps proj (h e)) → keeps proj (try_except c h).
Proof.
  intros Hc Hh self w. unfold try_except. specialize (Hc self w).
  destruct (c (self, w)) as [[e | a] [self1 w1]]; simpl in *; [| done].
  by rewrite Hh.
Qed.

Lemma kept_reraise {A} (c : M (RAGSystem B * World (Ext B)) A) :
  keeps proj c → keeps proj (reraise c).
Proof. intros Hc. apply kept_try_except; [done |]. apply kept_raise. Qed.

Lemma kept_on_embeddings_manager {A}
    (c : M (EmbeddingsManager B * World (Ext B)) A) :
  keeps proj (on_embeddings_manager B c).
Proof.
  intros self w. unfold on_embeddings_manager, zoom.
  destruct (c (embeddings_manager self, w)) as [r [m w']]. simpl.
  apply proj_embeddings_manager.
Qed.

Lemma kept_on_vector_store_manager {A}
    (c : M (VectorStoreManager B * World (Ext B)) A) :
  keeps proj (on_vector_store_manager B c).
Proof.
  intros self w. unfold on_vector_store_manager, zoom.
  destruct (c (vector_store_manager self, w)) as [r [m w']]. simpl.
  apply proj_vector_store_manager.
Qed.

Lemma kept_on_rag_chain {A} (c : M (RAGChain B * World (Ext B)) A) :
  keeps proj (on_rag_chain B c).
Proof.
  intros self w. unfold on_rag_chain.
  destruct (rag_chain self) as [rc |]; [| done].
  destruct (c (rc, w)) as [r [rc' w']]. simpl. apply proj_rag_chain.
Qed.

Lemma kept_set_rag_chain (rc : option (RAGChain B)) :
  keeps proj (self_set (set_rag_chain B rc)).
Proof. intros self w. simpl. apply proj_rag_chain. Qed.

Ltac kept :=
  repeat first
    [ apply kept_ret | apply kept_raise | apply kept_self_get
    | apply kept_in_world | apply kept_on_embeddings_manager
    | apply kept_on_vector_store_manager | apply kept_on_rag_chain
    | apply kept_set_rag_chain
    | apply kept_bind; [| intros ?]
    | apply kept_try_except; [| intros ?]
    | apply kept_reraise
    | match goal with
      | |- keeps _ (match ?x with _ => _ end) => destruct x
      | |- keeps _ (if ?x then _ else _) => destruct x
      end ].

Lemma kept_initialize_system (download_new : bool) (pdf_filename : option string)
    (force_rebuild : bool) :
  keeps proj (initialize_system B download_new pdf_filename force_rebuild).
Proof.
  unfold initialize_system, initialize_steps_1_to_5, maybe_download,
    rebuild_vector_store.
  kept.
Qed.

End Keeps.

Lemma initialize_system_keeps_config {B : Backend} (download_new : bool)
    (pdf_filename : option string) (force_rebuild : bool) :
  keeps (@config B)
    (initialize_system B download_new pdf_filename force_rebuild).
Proof. by apply kept_initialize_system. Qed.

(** ** The paths through step 5 *)

Lemma on_vector_store_manager_run {B : Backend} {A : Type}
    (c : M (VectorStoreManager B * World (Ext B)) A) (self : RAGSystem B)
    (w : World (Ext B)) :
  on_vector_store_manager B c (self, w)
  = ((c (vector_store_manager self, w)).1,
     (set_vector_store_manager B (c (vector_store_manager self, w)).2.1 self,
      (c (vector_store_manager self, w)).2.2)).
Proof.
  unfold on_vector_store_manager, zoom.
  by destruct (c (vector_store_manager self, w)) as [r [m w']].
Qed.

Lemma rebuild_vector_store_run {B : Backend} (force_rebuild : bool)
    (chunks : list Document) (emb : Emb B) (self : RAGSystem B)
    (w : World (Ext B)) :
  rebuild_vector_store B force_rebuild chunks emb (self, w)
  = if force_rebuild
       && OS.exists_ (fs w) (persist_directory (vector_store_manager self))
    then match on_vector_store_manager B (clear_vector_store B) (self, w) with
         | (inr _, st) =>
             on_vector_store_manager B (create_vector_store B chunks emb) st
         | (inl e, st) => (inl e, st)
         end
    else on_vector_store_manager B (create_vector_store B chunks emb) (self, w).
Proof.
  unfold rebuild_vector_store. rewrite reraise_run.
  unfold bind at 1, self_get. cbv beta iota.
  unfold bind at 1, in_world, fs_read. cbv beta iota.
  destruct (force_rebuild
            && OS.exists_ (fs w) (persist_directory (vector_store_manager self))).
  - unfold bind.
    by destruct (on_vector_store_manager B (clear_vector_store B) (self, w))
      as [[e | []] st].
  - reflexivity.
Qed.

Lemma clear_returns_empty_directory {B : Backend} (m m' : VectorStoreManager B)
    (w w' : World (Ext B)) :
  OS.exists_ (fs w) (persist_directory m) = true →
  clear_vector_store B (m, w) = (inr tt, (m', w')) →
  m' = m ∧ OS.empty_dir (fs w') (persist_directory m).
Proof.
  intros Hex. rewrite clear_vector_store_run, Hex.
  destruct (OS.rmtree (fs w) (persist_directory m)) as [e | fs1] eqn:Hrm;
    [done |].
  destruct (OS.makedirs (persist_directory m) fs1) as [r fs2] eqn:Hmk. simpl.
  intros [= -> <- <-]. split; [done |]. simpl. split.
  - by eapply makedirs_ok_isdir.
  - intros k Hbelow Hne.
    destruct (makedirs_only_adds_dirs _ fs1 _ fs2 Hmk k)
      as [-> | (_ & _ & Hup & _)].
    + rewrite (rmtree_lookup _ _ _ k Hrm). by rewrite decide_True.
    + destruct Hne. by apply (anti_symm suffix).
Qed.

Section StepFive.

Context {B : Backend}.
Context (download_new : bool) (pdf_filename : option string).
Context (self self1 self2 : RAGSystem B) (w w1 w2 w3 : World (Ext B)).
Context (emb : Emb B) (pdf_files : list string) (chunks : list Document).

(** Steps 1 to 4 went through: embeddings, optional download, a scan that
    found [pdf_files], a split that gave [chunks]. *)
Hypothesis Hembeddings :
  on_embeddings_manager B (initialize_embeddings B (config self)) (self, w)
  = (inr emb, (self1, w1)).
Hypothesis Hdownload :
  maybe_download B download_new pdf_filename (self1, w1) = (inr tt, (self2, w2)).
Hypothesis Hscan : (scan_pdf_files B (config self) w2).1 = inr pdf_files.
Hypothesis Hfound : pdf_files ≠ [].
Hypothesis Hsplit :
  load_and_split_all_pdfs B (config self) None w2 = (inr chunks, w3).

Lemma steps_without_chunks (force_rebuild : bool) :
  chunks = [] →
  initialize_steps_1_to_5 B download_new pdf_filename force_rebuild (self, w)
  = (inl ValueError, (self2, w3)).
Proof.
  intros Hnil. unfold initialize_steps_1_to_5.
  erewrite bind_run_inr by reflexivity.
  erewrite bind_run_inr by exact Hembeddings.
  erewrite bind_run_inr by exact Hdownload.
  erewrite bind_run_inr
    by exact (scan_in_world self self2 w2 pdf_files Hscan).
  destruct pdf_files as [| f files] eqn:Hpdf; [done |].
  erewrite bind_run_inr; [| unfold in_world; by rewrite Hsplit].
  by rewrite Hnil.
Qed.

Lemma steps_to_step_five (force_rebuild : bool) :
  chunks ≠ [] →
  initialize_steps_1_to_5 B download_new pdf_filename force_rebuild (self, w)
  = if force_rebuild
    then rebuild_vector_store B true chunks emb (self2, w3)
    else match on_vector_store_manager B (load_vector_store B emb) (self2, w3) with
         | (inr vs, st) => (inr vs, st)
         | (inl _, st) => rebuild_vector_store B false chunks emb st
         end.
Proof.
  intros Hchunks. unfold initialize_steps_1_to_5.
  erewrite bind_run_inr by reflexivity.
  erewrite bind_run_inr by exact Hembeddings.
  erewrite bind_run_inr by exact Hdownload.
  erewrite bind_run_inr
    by exact (scan_in_world self self2 w2 pdf_files Hscan).
  destruct pdf_files as [| f files] eqn:Hpdf; [done |].
  erewrite bind_run_inr; [| unfold in_world; by rewrite Hsplit].
  destruct chunks as [| chunk chunks'] eqn:Hch; [done |].
  destruct force_rebuild; simpl negb; cbv iota.
  - by erewrite bind_run_inr by reflexivity.
  - unfold bind at 1, try_except, bind at 1.
    by destruct (on_vector_store_manager B (load_vector_store B emb) (self2, w3))
      as [[e | vs] st].
Qed.

End StepFive.

(** X13: when PDFs are found but splitting them gives no chunk,
    [initialize_system] raises [ValueError] right after the split, for
    either value of [force_rebuild]: nothing is loaded, cleared or built,
    so a forced rebuild over unreadable documents leaves the persisted
    index as it was. *)
Theorem initialize_without_chunks_builds_nothing (B : Backend)
    (download_new : bool) (pdf_filename : option string) (force_rebuild : bool)
    (self self1 self2 : RAGSystem B) (w w1 w2 w3 : World (Ext B))
    (emb : Emb B) (pdf_files : list string) :
  on_embeddings_manager B (initialize_embeddings B (config self)) (self, w)
  = (inr emb, (self1, w1)) →
  maybe_download B download_new pdf_filename (self1, w1) = (inr tt, (self2, w2)) →
  (scan_pdf_files B (config self) w2).1 = inr pdf_files →
  pdf_files ≠ [] →
  load_and_split_all_pdfs B (config self) None w2 = (inr [], w3) →
  initialize_system B download_new pdf_filename force_rebuild (self, w)
  = (inl ValueError, (self2, w3)).
Proof.
  intros Hemb Hdl Hscan Hfound Hsplit.
  unfold initialize_system. apply bind_run_inl.
  by eapply steps_without_chunks.
Qed.

Lemma initialize_without_chunks_builds_nothing_witness :
  initialize_system Local.backend false None true
    (Local.system, LocalS3.broken_pdf_world)
  = (inl ValueError, (LocalS3.embedded_system, LocalS3.broken_pdf_world)).
Proof.
  apply (initialize_without_chunks_builds_nothing Local.backend false None true
           Local.system LocalS3.embedded_system LocalS3.embedded_system
           LocalS3.broken_pdf_world LocalS3.broken_pdf_world
           LocalS3.broken_pdf_world LocalS3.broken_pdf_world
           "all-MiniLM-L6-v2" ["b.pdf"]).
  - reflexivity.
  - reflexivity.
  - vm_compute. reflexivity.
  - done.
  - reflexivity.
Defined.

(** X14: a forced rebuild never tries to load.  When the index directory
    exists it is cleared first and [create_vector_store] then runs over an
    empty directory; when clearing raises, that exception is raised and
    nothing is created; when the directory does not exist,
    [create_vector_store] runs directly. *)
Theorem forced_rebuild_clears_then_creates (B : Backend)
    (download_new : bool) (pdf_filename : option string)
    (self self1 self2 : RAGSystem B) (w w1 w2 w3 : World (Ext B))
    (emb : Emb B) (pdf_files : list string) (chunks : list Document) :
  on_embeddings_manager B (initialize_embeddings B (config self)) (self, w)
  = (inr emb, (self1, w1)) →
  maybe_download B download_new pdf_filename (self1, w1) = (inr tt, (self2, w2)) →
  (scan_pdf_files B (config self) w2).1 = inr pdf_files →
  pdf_files ≠ [] →
  load_and_split_all_pdfs B (config self) None w2 = (inr chunks, w3) →
  chunks ≠ [] →
  let p := persist_directory (vector_store_manager self2) in
  let run := initialize_steps_1_to_5 B download_new pdf_filename true (self, w) in
  let cleared := on_vector_store_manager B (clear_vector_store B) (self2, w3) in
  (OS.exists_ (fs w3) p = true → cleared.1 = inr tt →
     run = on_vector_store_manager B (create_vector_store B chunks emb) cleared.2
     ∧ OS.empty_dir (fs cleared.2.2) p)
  ∧ (OS.exists_ (fs w3) p = true → ∀ e, cleared.1 = inl e →
       run = (inl e, cleared.2))
  ∧ (OS.exists_ (fs w3) p = false →
       run = on_vector_store_manager B (create_vector_store B chunks emb)
               (self2, w3)).
Proof.
  intros Hemb Hdl Hscan Hfound Hsplit Hchunks p run cleared.
  assert (run = rebuild_vector_store B true chunks emb (self2, w3)) as ->.
  { subst run.
    by rewrite (steps_to_step_five download_new pdf_filename self self1 self2
                  w w1 w2 w3 emb pdf_files chunks Hemb Hdl Hscan Hfound Hsplit
                  true Hchunks). }
  rewrite rebuild_vector_store_run. fold p. fold cleared. simpl andb.
  split; [| split].
  - intros Hex Hok. rewrite Hex.
    destruct cleared as [[e | []] st] eqn:Hcl; [done |].
    split; [done |]. simpl.
    subst cleared. rewrite on_vector_store_manager_run in Hcl.
    injection Hcl as Hr <-. simpl.
    destruct (clear_vector_store B (vector_store_manager self2, w3))
      as [r [m' w']] eqn:Hclear.
    simpl in *. subst r.
    by destruct (clear_returns_empty_directory _ m' w3 w' Hex Hclear).
  - intros -> e He. by destruct cleared as [[e' | []] st]; simplify_eq/=.
  - by intros ->.
Qed.

Lemma forced_rebuild_clears_then_creates_witness :
  OS.empty_dir
    (fs (on_vector_store_manager Local.backend
           (clear_vector_store Local.backend)
           (LocalS3.embedded_system, Local.one_pdf_world)).2.2)
    ["chroma_db"].
Proof.
  refine (proj2 (proj1 (forced_rebuild_clears_then_creates Local.backend
                          false None
                          Local.system LocalS3.embedded_system
                          LocalS3.embedded_system
                          Local.one_pdf_world Local.one_pdf_world
                          Local.one_pdf_world Local.one_pdf_world
                          "all-MiniLM-L6-v2" ["a.pdf"] [LocalS3.alpha_chunk]
                          _ _ _ _ _ _) _ _)).
  - reflexivity.
  - reflexivity.
  - vm_compute. reflexivity.
  - done.
  - apply pair_eta_fst. vm_compute. reflexivity.
  - done.
  - vm_compute. reflexivity.
  - vm_compute. reflexivity.
Defined.

(** X15: without [force_rebuild], a [load_vector_store] that raises, with
    whatever exception, is followed by [create_vector_store] over the
    state the failed load left: the directory is not cleared first. *)
Theorem failed_load_builds_without_clearing (B : Backend)
    (download_new : bool) (pdf_filename : option string)
    (self self1 self2 : RAGSystem B) (w w1 w2 w3 : World (Ext B))
    (emb : Emb B) (pdf_files : list string) (chunks : list Document)
    (e : exn) (st : RAGSystem B * World (Ext B)) :
  on_embeddings_manager B (initialize_embeddings B (config self)) (self, w)
  = (inr emb, (self1, w1)) →
  maybe_download B download_new pdf_filename (self1, w1) = (inr tt, (self2, w2)) →
  (scan_pdf_files B (config self) w2).1 = inr pdf_files →
  pdf_files ≠ [] →
  load_and_split_all_pdfs B (config self) None w2 = (inr chunks, w3) →
  chunks ≠ [] →
  on_vector_store_manager B (load_vector_store B emb) (self2, w3) = (inl e, st) →
  initialize_steps_1_to_5 B download_new pdf_filename false (self, w)
  = on_vector_store_manager B (create_vector_store B chunks emb) st.
Proof.
  intros Hemb Hdl Hscan Hfound Hsplit Hchunks Hload.
  rewrite (steps_to_step_five download_new pdf_filename self self1 self2
             w w1 w2 w3 emb pdf_files chunks Hemb Hdl Hscan Hfound Hsplit
             false Hchunks).
  rewrite Hload. destruct st as [s4 w4]. by rewrite rebuild_vector_store_run.
Qed.

Lemma failed_load_builds_without_clearing_witness :
  initialize_steps_1_to_5 LocalS3.strict_backend false None false
    (LocalS3.strict_system, Local.one_pdf_world)
  = on_vector_store_manager LocalS3.strict_backend
      (create_vector_store LocalS3.strict_backend [LocalS3.alpha_chunk]
         "all-MiniLM-L6-v2")
      (on_vector_store_manager LocalS3.strict_backend
         (load_vector_store LocalS3.strict_backend "all-MiniLM-L6-v2")
         (LocalS3.strict_embedded_system, Local.one_pdf_world)).2.
Proof.
  apply (failed_load_builds_without_clearing LocalS3.strict_backend false None
           LocalS3.strict_system LocalS3.strict_embedded_system
           LocalS3.strict_embedded_system
           Local.one_pdf_world Local.one_pdf_world
           Local.one_pdf_world Local.one_pdf_world
           "all-MiniLM-L6-v2" ["a.pdf"] [LocalS3.alpha_chunk]
           (OtherError "InvalidCollectionException")).
  - reflexivity.
  - reflexivity.
  - vm_compute. reflexivity.
  - done.
  - apply pair_eta_fst. vm_compute. reflexivity.
  - done.
  - apply pair_eta_fst. vm_compute. reflexivity.
Defined.

(** ** Creating the store and binding the session *)

Lemma create_vector_store_run {B : Backend} (chunks : list Document)
    (emb : Emb B) (m : VectorStoreManager B) (w : World (Ext B)) :
  create_vector_store B chunks emb (m, w)
  = match Chroma_from_documents B chunks emb (persist_directory m)
            (fs w) (ext w) with
    | (inl e, fs1, ext1) => (inl e, (m, mkWorld fs1 ext1 (sleeps w)))
    | (inr vs, fs1, ext1) =>
        match Chroma_persist B vs fs1 ext1 with
        | (inl e, fs2, ext2) =>
            (inl e, (set_vector_store B vs m, mkWorld fs2 ext2 (sleeps w)))
        | (inr _, fs2, ext2) =>
            (inr vs, (set_vector_store B vs m, mkWorld fs2 ext2 (sleeps w)))
        end
    end.
Proof.
  unfold create_vector_store. rewrite reraise_run.
  unfold bind, self_get, in_world, call, self_set. simpl.
  destruct (Chroma_from_documents B _ _ _ _ _) as [[[e | vs] fs1] ext1];
    [reflexivity |].
  simpl. by destruct (Chroma_persist B vs fs1 ext1) as [[[e | []] fs2] ext2].
Qed.

(** X16: [create_vector_store] stores the new collection in the manager
    before it persists it: when it returns, the store it returns is the
    one the manager holds; when [persist] raises, the manager already
    holds the collection that was not persisted; when [from_documents]
    raises, the manager is as before.  The directory it builds in is
    always the manager's own and is never changed. *)
Theorem create_vector_store_outcomes (B : Backend) (chunks : list Document)
    (emb : Emb B) (m : VectorStoreManager B) (w : World (Ext B)) :
  let run := create_vector_store B chunks emb (m, w) in
  let made := Chroma_from_documents B chunks emb (persist_directory m)
                (fs w) (ext w) in
  (∀ vs, run.1 = inr vs → vector_store run.2.1 = Some vs ∧ made.1.1 = inr vs)
  ∧ (∀ vs, made.1.1 = inr vs → vector_store run.2.1 = Some vs)
  ∧ (∀ e, made.1.1 = inl e → run.1 = inl e ∧ run.2.1 = m)
  ∧ persist_directory run.2.1 = persist_directory m.
Proof.
  intros run made. subst run made. rewrite create_vector_store_run.
  destruct (Chroma_from_documents B _ _ _ _ _) as [[[e | vs] fs1] ext1]; simpl.
  - split; [done |]. split; [done |]. split; [| done]. by intros e' [= <-].
  - destruct (Chroma_persist B vs fs1 ext1) as [[[e | []] fs2] ext2]; simpl.
    + split; [done |]. split; [by intros vs' [= <-] |]. by split.
    + split; [by intros vs' [= <-] |]. split; [by intros vs' [= <-] |].
      by split.
Qed.

Lemma load_returns {B : Backend} (emb : Emb B) (self self' : RAGSystem B)
    (w w' : World (Ext B)) (vs : Store B) :
  on_vector_store_manager B (load_vector_store B emb) (self, w)
  = (inr vs, (self', w')) →
  vector_store (vector_store_manager self') = Some vs.
Proof.
  rewrite on_vector_store_manager_run, load_vector_store_run.
  destruct (Chroma B _ _ _ _) as [[[e | vs'] fs1] ext1]; simpl; [done |].
  by intros [= <- <- <-].
Qed.

Lemma create_returns {B : Backend} (chunks : list Document) (emb : Emb B)
    (self self' : RAGSystem B) (w w' : World (Ext B)) (vs : Store B) :
  on_vector_store_manager B (create_vector_store B chunks emb) (self, w)
  = (inr vs, (self', w')) →
  vector_store (vector_store_manager self') = Some vs.
Proof.
  rewrite on_vector_store_manager_run, create_vector_store_run.
  destruct (Chroma_from_documents B _ _ _ _ _) as [[[e | vs'] fs1] ext1];
    simpl; [done |].
  destruct (Chroma_persist B vs' fs1 ext1) as [[[e | []] fs2] ext2]; simpl;
    [done |].
  by intros [= <- <- <-].
Qed.

Lemma rebuild_returns {B : Backend} (force_rebuild : bool)
    (chunks : list Document) (emb : Emb B)
    (self self' : RAGSystem B) (w w' : World (Ext B)) (vs : Store B) :
  rebuild_vector_store B force_rebuild chunks emb (self, w)
  = (inr vs, (self', w')) →
  vector_store (vector_store_manager self') = Some vs.
Proof.
  rewrite rebuild_vector_store_run.
  destruct (force_rebuild && _).
  - destruct (on_vector_store_manager B (clear_vector_store B) (self, w))
      as [[e | []] [s1 w1]]; [done |].
    apply create_returns.
  - apply create_returns.
Qed.

Lemma self_get_run {O W : Type} (o : O) (w : W) :
  @self_get O W (o, w) = (inr o, (o, w)).
Proof. reflexivity. Qed.

Lemma steps_return {B : Backend} (download_new : bool)
    (pdf_filename : option string) (force_rebuild : bool)
    (self self' : RAGSystem B) (w w' : World (Ext B)) (vs : Store B) :
  initialize_steps_1_to_5 B download_new pdf_filename force_rebuild (self, w)
  = (inr vs, (self', w')) →
  vector_store (vector_store_manager self') = Some vs.
Proof.
  unfold initialize_steps_1_to_5. intros H.
  apply bind_inr_inv in H as (self0 & st0 & Hget & H).
  apply bind_inr_inv in H as (emb & st1 & _ & H).
  apply bind_inr_inv in H as ([] & st2 & _ & H).
  apply bind_inr_inv in H as (pdf_files & st3 & _ & H).
  destruct pdf_files as [| f files]; [done |].
  apply bind_inr_inv in H as (chunks & st4 & _ & H).
  destruct chunks as [| chunk chunks]; [done |].
  apply bind_inr_inv in H as (loaded & [s5 w5] & Hload & H).
  assert (∀ v, loaded = Some v → vector_store (vector_store_manager s5) = Some v)
    as Hloaded.
  { intros v ->. destruct force_rebuild; simpl in Hload; [done |].
    unfold try_except in Hload. destruct st4 as [s4 w4].
    destruct ((vs0 <- on_vector_store_manager B (load_vector_store B emb);;
               ret (Some vs0))%py (s4, w4)) as [[e | o] st] eqn:Htry;
      [done |].
    injection Hload as -> ->.
    apply bind_inr_inv in Htry as (v' & [s w0] & Hl & Hret).
    injection Hret as -> -> ->. by eapply load_returns. }
  destruct loaded as [v |].
  - destruct force_rebuild; [by eapply rebuild_returns |].
    injection H as -> -> ->. by apply Hloaded.
  - by eapply rebuild_returns.
Qed.

(** What a returning [initialize_system] leaves behind. *)
Lemma initialize_system_returns {B : Backend} (download_new : bool)
    (pdf_filename : option string) (force_rebuild : bool)
    (self self' : RAGSystem B) (w w' : World (Ext B))
    (r : option (RAGChain B)) :
  initialize_system B download_new pdf_filename force_rebuild (self, w)
  = (inr r, (self', w')) →
  ∃ rc c,
    r = Some rc ∧ rag_chain self' = Some rc ∧ chain rc = Some c
    ∧ rc_config rc = config self'
    ∧ vector_store (vector_store_manager self') = Some (rc_vector_store rc).
Proof.
  unfold initialize_system. intros H.
  apply bind_inr_inv in H as (vs & [s1 w1] & Hsteps & H).
  apply steps_return in Hsteps.
  apply bind_inr_inv in H as (s1' & st & Hget & H).
  rewrite self_get_run in Hget. injection Hget as <- <-.
  apply bind_inr_inv in H as ([] & st & Hset & H).
  simpl in Hset. injection Hset as <-.
  apply bind_inr_inv in H as (c & [s3 w3] & Hbuild & H).
  unfold on_rag_chain in Hbuild. simpl in Hbuild.
  rewrite build_chain_run in Hbuild. simpl in Hbuild.
  destruct (make_chain B _ _ _ _ _) as [[[e | c'] fs1] ext1]; [done |].
  injection Hbuild as -> <- <-.
  apply bind_inr_inv in H as (s3' & st & Hget & H).
  rewrite self_get_run in Hget. injection Hget as <- <-.
  injection H as <- <- <-.
  by eexists _, c.
Qed.

(** X17: when [initialize_system] returns, what it returns is the session
    now bound to the system; that session's chain is built, its
    configuration is the system's, and its vector store is the one the
    vector store manager holds.  The system's configuration is the one it
    started with. *)
Theorem initialize_system_binds_built_session (B : Backend)
    (download_new : bool) (pdf_filename : option string) (force_rebuild : bool)
    (self : RAGSystem B) (w : World (Ext B)) :
  let run := initialize_system B download_new pdf_filename force_rebuild
               (self, w) in
  returned run →
  ∃ rc c,
    run.1 = inr (Some rc)
    ∧ rag_chain run.2.1 = Some rc
    ∧ chain rc = Some c
    ∧ rc_config rc = config self
    ∧ vector_store (vector_store_manager run.2.1) = Some (rc_vector_store rc)
    ∧ config run.2.1 = config self.
Proof.
  intros run Hret.
  pose proof (initialize_system_keeps_config download_new pdf_filename
                force_rebuild self w) as Hcfg.
  fold run in Hcfg. apply returned_inr in Hret as [r Hr].
  destruct run as [r0 [self' w']] eqn:Hrun. simpl in *. subst r0.
  destruct (initialize_system_returns _ _ _ _ _ _ _ _ Hrun)
    as (rc & c & -> & Hbound & Hchain & Hconfig & Hstore).
  exists rc, c. by rewrite Hconfig, Hcfg.
Qed.

Lemma initialize_system_binds_built_session_witness :
  ∃ rc c,
    (initialize_system Local.backend false None true
       (Local.system, Local.one_pdf_world)).1 = inr (Some rc)
    ∧ rag_chain (initialize_system Local.backend false None true
                   (Local.system, Local.one_pdf_world)).2.1 = Some rc
    ∧ chain rc = Some c
    ∧ rc_config rc = config Local.system
    ∧ vector_store
        (vector_store_manager
           (initialize_system Local.backend false None true
              (Local.system, Local.one_pdf_world)).2.1)
      = Some (rc_vector_store rc)
    ∧ config (initialize_system Local.backend false None true
                (Local.system, Local.one_pdf_world)).2.1
      = config Local.system.
Proof.
  apply (initialize_system_binds_built_session Local.backend false None true
           Local.system Local.one_pdf_world).
  vm_compute. exact I.
Defined.

(** ** The routes that ask *)

Lemma initialize_rag_system_run {B : Backend} (self : RAGSystem B)
    (w : World (Ext B)) :
  initialize_rag_system B (self, w)
  = match rag_chain self with
    | Some _ => (inr true, (self, w))
    | None =>
        match initialize_system B false None false (self, w) with
        | (inr _, st) => (inr true, st)
        | (inl _, st) => (inr false, st)
        end
    end.
Proof.
  unfold initialize_rag_system, try_except. unfold bind at 1, self_get.
  cbv beta iota. destruct (rag_chain self) as [rc |]; [reflexivity |].
  unfold bind.
  by destruct (initialize_system B false None false (self, w)) as [[e | r] st].
Qed.


(** X18: [initialize_rag_system] never raises; when a session is bound it
    answers [True] and does nothing; otherwise it runs
    [initialize_system] with its defaults and answers [True] exactly when
    that returned; whenever it answers [True] a session is bound
    afterwards, and the configuration is never changed. *)
Theorem initialize_rag_system_outcomes (B : Backend) (self : RAGSystem B)
    (w : World (Ext B)) :
  let run := initialize_rag_system B (self, w) in
  (∃ ready, run.1 = inr ready ∧ (ready = true → is_Some (rag_chain run.2.1)))
  ∧ (is_Some (rag_chain self) → run = (inr true, (self, w)))
  ∧ (rag_chain self = None →
     run.2 = (initialize_system B false None false (self, w)).2
     ∧ (run.1 = inr true
        ↔ returned (initialize_system B false None false (self, w))))
  ∧ config run.2.1 = config self.
Proof.
  intros run. subst run. rewrite initialize_rag_system_run.
  destruct (rag_chain self) as [rc |] eqn:Hrc.
  - split; [exists true; split; [done |]; intros _; simpl; by rewrite Hrc |].
    split; [done |]. split; [done |]. done.
  - pose proof (initialize_system_keeps_config false None false self w) as Hcfg.
    destruct (initialize_system B false None false (self, w))
      as [[e | r] [self' w']] eqn:Hinit; simpl in *.
    + split; [by exists false |]. split; [by intros [? ?] |].
      split; [| done]. intros _. split; [done |]. unfold returned. simpl.
      split; [done | done].
    + destruct (initialize_system_returns _ _ _ _ _ _ _ _ Hinit)
        as (rc & c & _ & Hbound & _).
      split; [exists true; split; [done |]; by rewrite Hbound |].
      split; [by intros [? ?] |]. split; [| done].
      intros _. split; [done |]. unfold returned. simpl. done.
Qed.

(** A failed build of the chain leaves a session bound all the same: the
    first call answers [False], the second answers [True] without
    initialising anything. *)
Example initialize_rag_system_after_failed_build :
  let first := initialize_rag_system Local.backend
                 (Local.system, Local.llm_down_world) in
  first.1 = inr false
  ∧ match rag_chain first.2.1 with
    | Some rc => chain rc = None
    | None => False
    end
  ∧ (initialize_rag_system Local.backend first.2).1 = inr true.
Proof.
  split; [vm_compute; reflexivity |].
  split; vm_compute; reflexivity.
Qed.



Example api_ask_on_a_ready_system :
  let ask question :=
    (api_ask Local.backend (Some {["question" := question]})
       (Local.ready_system, Local.one_pdf_world)).1 in
  ask (PyStr "what is alpha?")
  = inr (Success (PyStr "what is alpha?", "%PDF alpha? what is alpha?"))
  ∧ ask (PyStr " a ")
    = inr (BadRequest
             "Question must be a non-empty string with at least 3 characters")
  ∧ ask (PyInt 42)
    = inr (BadRequest
             "Question must be a non-empty string with at least 3 characters")
  ∧ (api_ask Local.backend (Some {["q" := PyStr "what is alpha?"]})
       (Local.ready_system, Local.one_pdf_world)).1
    = inr (BadRequest "Question is required").
Proof.
  split; [vm_compute; reflexivity |].
  split; [vm_compute; reflexivity |].
  split; vm_compute; reflexivity.
Qed.
